(** * tutor/plugins.py: the plugin registry

    A shallow embedding of [tutor/plugins.py] and the properties of its
    catalogue, registry cache and enable/disable helpers.

    Python objects that the code mutates in place (configuration
    dictionaries and the lists they hold) live in a store and are
    referred to by location, so that aliasing and [deepcopy] mean what
    they mean in Python.  Code that can raise returns an outcome next to
    the store it leaves behind: a raised exception does not roll back
    what was already written. *)

From stdpp Require Import gmap strings list fin_maps sorting.

Set Warnings "-clear-no-such-hyp".

(** ** Exceptions and outcomes *)

Inductive exn : Type :=
  | TutorError (msg : string)       (* exceptions.TutorError *)
  | KeyError (key : string)         (* d[key] on a missing key *)
  | ValueError                      (* list.remove(x) with x not in list *)
  | AttributeError (attr : string)  (* a method the object does not have *)
  | DanglingReference               (* a location with no object: never in a store Python built *)
  | Unterminated.                   (* a loop that used up its iteration bound *)

Inductive outcome (A : Type) : Type :=
  | Ok (a : A)
  | Raise (e : exn).
Arguments Ok {A} a.
Arguments Raise {A} e.

(** ** Ordered dictionaries

    Python dictionaries iterate in insertion order.  Where the code
    iterates over a dictionary it builds itself ([items()], [keys()]),
    the dictionary is an association list with the update discipline of
    [d[k] = v]: an existing key keeps its place, a new key goes last. *)

Module Dict.
Definition t (V : Type) : Type := list (string * V).

Definition empty {V} : t V := [].

Fixpoint get {V} (k : string) (d : t V) : option V :=
  match d with
  | [] => None
  | (k', v) :: d' => if decide (k = k') then Some v else get k d'
  end.

Fixpoint set {V} (k : string) (v : V) (d : t V) : t V :=
  match d with
  | [] => [(k, v)]
  | (k', v') :: d' =>
      if decide (k = k') then (k', v) :: d' else (k', v') :: set k v d'
  end.

Definition keys {V} (d : t V) : list string := d.*1.
Definition items {V} (d : t V) : list (string * V) := d.
End Dict.

(** ** Plugin objects and descriptors *)

(** An attribute of a loaded plugin object is either a zero-argument
    callable, given with the value its invocation returns, or a plain
    value. *)
Inductive attribute (A : Type) : Type :=
  | Callable (ret : A)
  | Plain (v : A).
Arguments Callable {A} ret.
Arguments Plain {A} v.

(** click.Command, opaque here. *)
Inductive click_command : Type := Command (label : string).

(** The object a plugin is built from: a module or the object an
    entry point loads.  Every attribute is optional. *)
Record plugin_object : Type := PluginObject {
  obj_name : string;   (* __name__, identifies the object in the call trace *)
  obj_config : option (attribute (gmap string (gmap string string)));
  obj_patches : option (attribute (gmap string string));
  obj_hooks : option (attribute (gmap string (list string)));
  obj_templates : option (attribute (option string));
  obj_command : option (attribute click_command)
}.

Inductive plugin_class : Type := OfficialPlugin | EntrypointPlugin.

Module BasePlugin.
Record t : Type := Make {
  cls : plugin_class;
  name : string;
  config : gmap string (gmap string string);
  patches : gmap string string;
  hooks : gmap string (list string);
  templates_root : option string;
  command : option (attribute click_command)
}.
End BasePlugin.

(** What pkg_resources.iter_entry_points gives for one entry point. *)
Record entry_point : Type := EntryPoint {
  ep_name : string;
  ep_load : plugin_object;      (* entrypoint.load() *)
  ep_dist_version : string      (* entrypoint.dist.version *)
}.

(** ** The store *)

Definition loc : Type := positive.

(** A configuration value: an immutable scalar or a reference to a list
    object. *)
Inductive value : Type :=
  | VStr (s : string)
  | VList (l : loc).

Global Instance value_eq_dec : EqDecision value.
Proof. solve_decision. Defined.

Module Plugins.
Record t : Type := Make {
  config : loc;                                   (* self.config *)
  patches : gmap string (Dict.t string);          (* self.patches *)
  hooks : gmap string (Dict.t (list string));     (* self.hooks *)
  template_roots : Dict.t string                  (* self.template_roots *)
}.
End Plugins.

Record state : Type := State {
  dicts : gmap loc (gmap string value);    (* dictionary objects *)
  lists : gmap loc (list string);          (* list objects *)
  INSTALLED : list BasePlugin.t;           (* OfficialPlugin.INSTALLED *)
  entry_points : list entry_point;         (* pkg_resources.iter_entry_points(ENTRYPOINT) *)
  INSTANCE : option Plugins.t;             (* Plugins.INSTANCE *)
  calls : list (string * string)           (* invoked callables: (object, attribute) *)
}.

Definition set_dicts (f : gmap loc (gmap string value) → gmap loc (gmap string value))
    (s : state) : state :=
  State (f (dicts s)) (lists s) (INSTALLED s) (entry_points s) (INSTANCE s) (calls s).
Definition set_lists (f : gmap loc (list string) → gmap loc (list string))
    (s : state) : state :=
  State (dicts s) (f (lists s)) (INSTALLED s) (entry_points s) (INSTANCE s) (calls s).
Definition set_INSTALLED (v : list BasePlugin.t) (s : state) : state :=
  State (dicts s) (lists s) v (entry_points s) (INSTANCE s) (calls s).
Definition set_INSTANCE (v : option Plugins.t) (s : state) : state :=
  State (dicts s) (lists s) (INSTALLED s) (entry_points s) v (calls s).
Definition set_calls (f : list (string * string) → list (string * string))
    (s : state) : state :=
  State (dicts s) (lists s) (INSTALLED s) (entry_points s) (INSTANCE s) (f (calls s)).

(** ** Computations *)

Definition M (A : Type) : Type := state → outcome A * state.

Definition ret {A} (a : A) : M A := λ s, (Ok a, s).
Definition raise {A} (e : exn) : M A := λ s, (Raise e, s).
Definition bind {A B} (m : M A) (k : A → M B) : M B :=
  λ s, match m s with
       | (Ok a, s') => k a s'
       | (Raise e, s') => (Raise e, s')
       end.

Notation "'let!' x := m 'in' k" := (bind m (λ x, k))
  (at level 10, x pattern, m at level 200, k at level 200,
   format "'[v' 'let!'  x  :=  m  'in' '/' k ']'").
Notation "m ;;; k" := (bind m (λ _, k))
  (at level 100, k at level 200, right associativity).

Fixpoint mapM {A B} (f : A → M B) (l : list A) : M (list B) :=
  match l with
  | [] => ret []
  | x :: l' => let! y := f x in let! ys := mapM f l' in ret (y :: ys)
  end.

Fixpoint foldM {A B} (f : B → A → M B) (acc : B) (l : list A) : M B :=
  match l with
  | [] => ret acc
  | x :: l' => let! acc' := f acc x in foldM f acc' l'
  end.

Fixpoint filterM {A} (f : A → M bool) (l : list A) : M (list A) :=
  match l with
  | [] => ret []
  | x :: l' =>
      let! keep := f x in
      let! rest := filterM f l' in
      ret (if keep then x :: rest else rest)
  end.

Definition get_state : M state := λ s, (Ok s, s).
Definition modify (f : state → state) : M unit := λ s, (Ok tt, f s).

(** ** Objects in the store *)

Definition read_dict (c : loc) : M (gmap string value) :=
  λ s, match dicts s !! c with
       | Some d => (Ok d, s)
       | None => (Raise DanglingReference, s)
       end.

Definition read_list (l : loc) : M (list string) :=
  λ s, match lists s !! l with
       | Some xs => (Ok xs, s)
       | None => (Raise DanglingReference, s)
       end.

Definition write_dict (c : loc) (d : gmap string value) : M unit :=
  modify (set_dicts <[c := d]>).

Definition write_list (l : loc) (xs : list string) : M unit :=
  modify (set_lists <[l := xs]>).

(** A new object gets a location no object has. *)
Definition new_dict (d : gmap string value) : M loc :=
  λ s, let c := fresh (dom (dicts s)) in (Ok c, set_dicts <[c := d]> s).

Definition new_list (xs : list string) : M loc :=
  λ s, let l := fresh (dom (lists s)) in (Ok l, set_lists <[l := xs]> s).

(** ** Python's operations on dictionaries, lists and strings *)

(** [d.get(k)]: the default is left to the caller. *)
Definition dict_get (c : loc) (k : string) : M (option value) :=
  let! d := read_dict c in ret (d !! k).

(** [d[k]] *)
Definition dict_getitem (c : loc) (k : string) : M value :=
  let! d := read_dict c in
  match d !! k with
  | Some v => ret v
  | None => raise (KeyError k)
  end.

(** [k in d] *)
Definition dict_contains (c : loc) (k : string) : M bool :=
  let! d := read_dict c in ret (bool_decide (is_Some (d !! k))).

(** [d[k] = v] *)
Definition dict_setitem (c : loc) (k : string) (v : value) : M unit :=
  let! d := read_dict c in write_dict c (<[k := v]> d).

(** [a in b] on two strings: [a] occurs in [b] as a substring. *)
Fixpoint is_prefix (a b : string) : bool :=
  match a, b with
  | EmptyString, _ => true
  | String x a', String y b' => bool_decide (x = y) && is_prefix a' b'
  | String _ _, EmptyString => false
  end.

Fixpoint is_substring (a b : string) : bool :=
  is_prefix a b ||
  match b with
  | EmptyString => false
  | String _ b' => is_substring a b'
  end.

(** [x in v] *)
Definition contains (x : string) (v : value) : M bool :=
  match v with
  | VList l => let! xs := read_list l in ret (bool_decide (x ∈ xs))
  | VStr str => ret (is_substring x str)
  end.

(** [v.append(x)] *)
Definition list_append (v : value) (x : string) : M unit :=
  match v with
  | VList l => let! xs := read_list l in write_list l (xs ++ [x])
  | VStr _ => raise (AttributeError "append")
  end.

(** Python orders strings by code point, which on UTF-8 encoded strings
    is the byte-wise lexicographic order [String.le]. *)
Definition sorted (xs : list string) : list string := merge_sort String.le xs.

(** [v.sort()] *)
Definition list_sort (v : value) : M unit :=
  match v with
  | VList l => let! xs := read_list l in write_list l (sorted xs)
  | VStr _ => raise (AttributeError "sort")
  end.

(** [xs.remove(x)] takes out the first occurrence of [x]. *)
Fixpoint remove_first (x : string) (xs : list string) : option (list string) :=
  match xs with
  | [] => None
  | y :: xs' => if decide (x = y) then Some xs' else (y ::.) <$> remove_first x xs'
  end.

(** [v.remove(x)] *)
Definition list_remove (v : value) (x : string) : M unit :=
  match v with
  | VList l =>
      let! xs := read_list l in
      match remove_first x xs with
      | Some xs' => write_list l xs'
      | None => raise ValueError
      end
  | VStr _ => raise (AttributeError "remove")
  end.

(** What a configuration value is worth when compared: a scalar, or the
    contents of the list it refers to. *)
Definition resolve (L : gmap loc (list string)) (v : value) : option (string + list string) :=
  match v with
  | VStr x => Some (inl x)
  | VList l => inr <$> L !! l
  end.

(** [c1 != c2] on two dictionaries: Python compares keys and, key by
    key, the values, a list by its elements. *)
Definition dict_ne (c1 c2 : loc) : M bool :=
  let! d1 := read_dict c1 in
  let! d2 := read_dict c2 in
  let! s := get_state in
  ret (bool_decide (resolve (lists s) <$> d1 ≠ resolve (lists s) <$> d2)).

(** [copy.deepcopy(config)]: a new dictionary whose lists are new
    objects; [memo] keeps a list that occurs twice shared in the copy. *)
Definition deepcopy_value (memo : gmap loc loc) (v : value) : M (gmap loc loc * value) :=
  match v with
  | VStr x => ret (memo, VStr x)
  | VList l =>
      match memo !! l with
      | Some l' => ret (memo, VList l')
      | None =>
          let! xs := read_list l in
          let! l' := new_list xs in
          ret (<[l := l']> memo, VList l')
      end
  end.

Definition deepcopy_item (acc : gmap loc loc * gmap string value) (item : string * value)
    : M (gmap loc loc * gmap string value) :=
  let '(memo, d') := acc in
  let '(k, v) := item in
  let! (memo', v') := deepcopy_value memo v in
  ret (memo', <[k := v']> d').

Definition deepcopy (config : loc) : M loc :=
  let! d := read_dict config in
  let! (_, d') := foldM deepcopy_item (∅, ∅) (map_to_list d) in
  new_dict d'.

(** ** tutor/plugins.py *)

Definition CONFIG_KEY : string := "PLUGINS".

(** [getattr(plugin, attr_name, default)] *)
Definition getattr {A} (attr : option (attribute A)) (default : A) : attribute A :=
  match attr with
  | Some a => a
  | None => Plain default
  end.

(** A call of the attribute [attr_name] of the object [obj] goes on
    record. *)
Definition called (obj attr_name : string) : M unit :=
  modify (set_calls (λ tr, tr ++ [(obj, attr_name)])).

Definition get_callable_attr {A} (plugin : plugin_object) (attr_name : string)
    (field : plugin_object → option (attribute A)) (default : A) : M A :=
  match getattr (field plugin) default with
  | Callable r => called (obj_name plugin) attr_name ;;; ret r   (* attr = attr() *)
  | Plain v => ret v
  end.

(** [BasePlugin.__init__]; [cls] is the class of the object being
    initialised. *)
Definition BasePlugin_init (cls : plugin_class) (name : string) (obj : plugin_object)
    : M BasePlugin.t :=
  let! config := get_callable_attr obj "config" obj_config ∅ in
  let! patches := get_callable_attr obj "patches" obj_patches ∅ in
  let! hooks := get_callable_attr obj "hooks" obj_hooks ∅ in
  let! templates_root := get_callable_attr obj "templates" obj_templates None in
  let command := obj_command obj in
  ret (BasePlugin.Make cls name config patches hooks templates_root command).

(** [EntrypointPlugin.__init__] *)
Definition EntrypointPlugin_init (entrypoint : entry_point) : M BasePlugin.t :=
  BasePlugin_init EntrypointPlugin (ep_name entrypoint) (ep_load entrypoint).

(** The generators of the source are consumed to the end by every
    caller in the module, so each is the list of what it yields. *)

(** [EntrypointPlugin.iter_installed] *)
Definition EntrypointPlugin_iter_installed : M (list BasePlugin.t) :=
  let! s := get_state in
  mapM EntrypointPlugin_init (entry_points s).

(** [OfficialPlugin.iter_installed] *)
Definition OfficialPlugin_iter_installed : M (list BasePlugin.t) :=
  let! s := get_state in
  ret (INSTALLED s).

Definition class_iter_installed (PluginClass : plugin_class) : M (list BasePlugin.t) :=
  match PluginClass with
  | OfficialPlugin => OfficialPlugin_iter_installed
  | EntrypointPlugin => EntrypointPlugin_iter_installed
  end.

(** One round of the inner loop of [Plugins.iter_installed]: the set of
    names seen so far and the plugins yielded so far. *)
Definition yield_unseen (acc : gset string * list BasePlugin.t) (plugin : BasePlugin.t)
    : gset string * list BasePlugin.t :=
  let '(installed_plugin_names, yielded) := acc in
  if decide (BasePlugin.name plugin ∉ installed_plugin_names)
  then ({[BasePlugin.name plugin]} ∪ installed_plugin_names, yielded ++ [plugin])
  else (installed_plugin_names, yielded).

(** [Plugins.iter_installed] *)
Definition Plugins_iter_installed : M (list BasePlugin.t) :=
  let classes := [OfficialPlugin; EntrypointPlugin] in
  let installed_plugin_names : gset string := ∅ in
  let! (_, yielded) :=
    foldM (λ acc PluginClass,
             let! plugins := class_iter_installed PluginClass in
             ret (foldl yield_unseen acc plugins))
          (installed_plugin_names, []) classes in
  ret yielded.

(** [is_enabled(config, name)]: [name in config.get(CONFIG_KEY, [])] *)
Definition is_enabled (config : loc) (name : string) : M bool :=
  let! v := dict_get config CONFIG_KEY in
  match v with
  | Some v => contains name v
  | None => ret false
  end.

(** [Plugins.iter_enabled] *)
Definition Plugins_iter_enabled (self : Plugins.t) : M (list BasePlugin.t) :=
  let! installed := Plugins_iter_installed in
  filterM (λ plugin, is_enabled (Plugins.config self) (BasePlugin.name plugin)) installed.

(** [index[key][plugin_name] = v], with [index[key] = {}] first when the
    key is new. *)
Definition index_add {V} (plugin_name : string) (index : gmap string (Dict.t V))
    (item : string * V) : gmap string (Dict.t V) :=
  let '(key, v) := item in
  let index :=
    if decide (index !! key = None) then <[key := Dict.empty]> index else index in
  <[key := Dict.set plugin_name v (default Dict.empty (index !! key))]> index.

(** The body of the loop of [Plugins.__init__]. *)
Definition Plugins_add (self : Plugins.t) (plugin : BasePlugin.t) : Plugins.t :=
  let name := BasePlugin.name plugin in
  let patches :=
    foldl (index_add name) (Plugins.patches self)
          (map_to_list (BasePlugin.patches plugin)) in
  let hooks :=
    foldl (index_add name) (Plugins.hooks self)
          (map_to_list (BasePlugin.hooks plugin)) in
  let template_roots :=
    match BasePlugin.templates_root plugin with
    | Some root =>
        if decide (root = "") then Plugins.template_roots self
        else Dict.set name root (Plugins.template_roots self)
    | None => Plugins.template_roots self
    end in
  Plugins.Make (Plugins.config self) patches hooks template_roots.

(** [Plugins.__init__] *)
Definition Plugins_init (config : loc) : M Plugins.t :=
  let! config' := deepcopy config in
  let self := Plugins.Make config' ∅ ∅ Dict.empty in
  let! enabled := Plugins_iter_enabled self in
  ret (foldl Plugins_add self enabled).

(** [Plugins.clear] *)
Definition Plugins_clear : M unit :=
  modify (set_INSTANCE None) ;;; modify (set_INSTALLED []).

(** [Plugins.instance] *)
Definition Plugins_instance (config : loc) : M Plugins.t :=
  let build :=
    let! self := Plugins_init config in
    modify (set_INSTANCE (Some self)) ;;; ret self in
  let! s := get_state in
  match INSTANCE s with
  | None => build
  | Some inst =>
      let! differs := dict_ne (Plugins.config inst) config in
      if differs then build else ret inst
  end.

(** [Plugins.iter_patches] *)
Definition Plugins_iter_patches (self : Plugins.t) (name : string)
    : M (list (string * string)) :=
  let plugin_patches := default Dict.empty (Plugins.patches self !! name) in
  let plugins := sorted (Dict.keys plugin_patches) in
  mapM (λ plugin,
          match Dict.get plugin plugin_patches with
          | Some content => ret (plugin, content)
          | None => raise (KeyError plugin)
          end) plugins.

(** [Plugins.iter_hooks] *)
Definition Plugins_iter_hooks (self : Plugins.t) (hook_name : string)
    : M (list (string * list string)) :=
  ret (Dict.items (default Dict.empty (Plugins.hooks self !! hook_name))).

(** [Plugins.iter_template_roots] *)
Definition Plugins_iter_template_roots (self : Plugins.t) : M (list (string * string)) :=
  ret (Dict.items (Plugins.template_roots self)).

Definition iter_installed : M (list BasePlugin.t) := Plugins_iter_installed.

Definition is_installed (name : string) : M bool :=
  let! plugins := iter_installed in
  let plugin_names := BasePlugin.name <$> plugins in
  ret (bool_decide (name ∈ plugin_names)).

Definition enable (config : loc) (name : string) : M unit :=
  let! installed := is_installed name in
  if negb installed
  then raise (TutorError ("plugin '" +:+ name +:+ "' is not installed."))
  else
    let! enabled := is_enabled config name in
    if enabled then ret tt
    else
      let! present := dict_contains config CONFIG_KEY in
      (if negb present
       then let! l := new_list [] in dict_setitem config CONFIG_KEY (VList l)
       else ret tt) ;;;
      let! v := dict_getitem config CONFIG_KEY in
      list_append v name ;;;
      let! v := dict_getitem config CONFIG_KEY in
      list_sort v.

(** The loop of [disable], run for at most [n] rounds. *)
Fixpoint disable_loop (n : nat) (config : loc) (name : string) : M unit :=
  match n with
  | 0 => raise Unterminated
  | S n' =>
      let! v := dict_getitem config CONFIG_KEY in
      let! found := contains name v in
      if found then
        let! v := dict_getitem config CONFIG_KEY in
        list_remove v name ;;;
        disable_loop n' config name
      else ret tt
  end.

(** Every round but the last takes an element out of the list, so the
    length of the list plus one bounds the number of rounds. *)
Definition disable_rounds (s : state) (config : loc) : nat :=
  match dicts s !! config with
  | Some d =>
      match d !! CONFIG_KEY with
      | Some (VList l) => S (length (default [] (lists s !! l)))
      | _ => 1
      end
  | None => 1
  end.

Definition disable (config : loc) (name : string) : M unit :=
  λ s, disable_loop (disable_rounds s config) config name s.

Definition iter_enabled (config : loc) : M (list BasePlugin.t) :=
  let! inst := Plugins_instance config in Plugins_iter_enabled inst.

Definition iter_patches (config : loc) (name : string) : M (list (string * string)) :=
  let! inst := Plugins_instance config in Plugins_iter_patches inst name.

Definition iter_hooks (config : loc) (hook_name : string)
    : M (list (string * list string)) :=
  let! inst := Plugins_instance config in Plugins_iter_hooks inst hook_name.

Definition iter_template_roots (config : loc) : M (list (string * string)) :=
  let! inst := Plugins_instance config in Plugins_iter_template_roots inst.

(** ** Observations the statements use *)

(** What an optional attribute resolves to, and the calls that takes. *)
Definition attr_value {A} (attr : option (attribute A)) (default : A) : A :=
  match attr with
  | None => default
  | Some (Callable r) => r
  | Some (Plain v) => v
  end.

Definition attr_calls {A} (obj attr_name : string) (attr : option (attribute A))
    : list (string * string) :=
  match attr with
  | Some (Callable _) => [(obj, attr_name)]
  | _ => []
  end.

(** The descriptor [BasePlugin.__init__] builds and the calls it makes. *)
Definition descriptor (cls : plugin_class) (name : string) (obj : plugin_object)
    : BasePlugin.t :=
  BasePlugin.Make cls name
    (attr_value (obj_config obj) ∅)
    (attr_value (obj_patches obj) ∅)
    (attr_value (obj_hooks obj) ∅)
    (attr_value (obj_templates obj) None)
    (obj_command obj).

Definition init_calls (obj : plugin_object) : list (string * string) :=
  attr_calls (obj_name obj) "config" (obj_config obj)
  ++ attr_calls (obj_name obj) "patches" (obj_patches obj)
  ++ attr_calls (obj_name obj) "hooks" (obj_hooks obj)
  ++ attr_calls (obj_name obj) "templates" (obj_templates obj).

(** What the entry points load to, and the calls loading them makes. *)
Definition discovered (eps : list entry_point) : list BasePlugin.t :=
  (λ e, descriptor EntrypointPlugin (ep_name e) (ep_load e)) <$> eps.

Definition load_calls (eps : list entry_point) : list (string * string) :=
  eps ≫= (λ e, init_calls (ep_load e)).

(** The state after a full iteration over the installed plugins. *)
Definition after_load (s : state) : state :=
  set_calls (λ tr, tr ++ load_calls (entry_points s)) s.

(** The installed plugins, in the order [Plugins.iter_installed] yields
    them. *)
Definition catalog (s : state) : list BasePlugin.t :=
  (foldl yield_unseen (foldl yield_unseen (∅, []) (INSTALLED s))
         (discovered (entry_points s))).2.

(** The list [config.get(CONFIG_KEY, [])] evaluates to in [s]; there is
    none when [config] is no dictionary of the store or holds something
    else than a list of the store under the key. *)
Definition config_plugins (s : state) (config : loc) : option (list string) :=
  match dicts s !! config with
  | Some d =>
      match d !! CONFIG_KEY with
      | None => Some []
      | Some (VList l) => lists s !! l
      | Some (VStr _) => None
      end
  | None => None
  end.

(** What [is_enabled(config, name)] evaluates to in [s]. *)
Definition enabled_in (s : state) (config : loc) (name : string) : bool :=
  match dicts s !! config with
  | Some d =>
      match resolve (lists s) <$> d !! CONFIG_KEY with
      | Some (Some (inr xs)) => bool_decide (name ∈ xs)
      | Some (Some (inl str)) => is_substring name str
      | _ => false
      end
  | None => false
  end.

(** The installed plugins that are enabled in [config]. *)
Definition enabled_plugins (s : state) (config : loc) : list BasePlugin.t :=
  filter (λ p, enabled_in s config (BasePlugin.name p) = true) (catalog s).

(** What the plugins [ps] contribute under [key], in their order: the
    name of each plugin that has the key, with what it holds there. *)
Definition contributions {V} (field : BasePlugin.t → gmap string V) (key : string)
    (ps : list BasePlugin.t) : Dict.t V :=
  omap (λ p, (BasePlugin.name p,.) <$> field p !! key) ps.

(** The template roots of the plugins [ps] that have one. *)
Definition roots (ps : list BasePlugin.t) : Dict.t string :=
  omap (λ p, match BasePlugin.templates_root p with
             | Some root => if decide (root = "") then None
                            else Some (BasePlugin.name p, root)
             | None => None
             end) ps.

(** The registry built for the plugins [ps] over the snapshot [c]. *)
Definition registry (c : loc) (ps : list BasePlugin.t) : Plugins.t :=
  foldl Plugins_add (Plugins.Make c ∅ ∅ Dict.empty) ps.

(** The cache does not stand in the way of a change to the list object
    [l]: it is empty, or the snapshot of the cached registry is a
    dictionary of the store whose PLUGINS entry is another object than
    [l].  A registry built by [Plugins.__init__] has a snapshot with
    lists of its own. *)
Definition cache_separate (s : state) (l : loc) : bool :=
  match INSTANCE s with
  | None => true
  | Some inst =>
      match dicts s !! Plugins.config inst with
      | Some d => bool_decide (d !! CONFIG_KEY ≠ Some (VList l))
      | None => false
      end
  end.

(** A valid configuration: a dictionary of the store whose list
    references all lead to lists of the store. *)
Definition valid_dict (s : state) (d : gmap string value) : Prop :=
  map_Forall (λ _ v, is_Some (resolve (lists s) v)) d.

(** While a dictionary is being copied from a store whose lists are
    [L0], the lists [L] of the running store extend [L0] and [memo]
    sends every list copied so far to a new location with the same
    contents. *)
Definition copying (L0 L : gmap loc (list string)) (memo : gmap loc loc) : Prop :=
  L0 ⊆ L
  ∧ (∀ l l', memo !! l = Some l' →
             (l' ∉ dom L0) ∧ is_Some (L0 !! l) ∧ L !! l' = L0 !! l).

(** ** Sequences of calls *)

(** A call of [enable] or of [disable], and a sequence of such calls on
    one configuration and one plugin name. *)
Inductive operation : Type := Enable | Disable.

Definition apply_operation (config : loc) (name : string) (op : operation) : M unit :=
  match op with
  | Enable => enable config name
  | Disable => disable config name
  end.

Definition run_operations (config : loc) (name : string) (ops : list operation) : M unit :=
  foldM (λ _ op, apply_operation config name op) tt ops.

(** ** Sample stores *)

Definition plugin_A : BasePlugin.t :=
  BasePlugin.Make OfficialPlugin "A" ∅ {["p1" := "foo"]} ∅ None None.

Definition object_B : plugin_object :=
  PluginObject "tutorb" None (Some (Callable {["p1" := "bar"]})) None None None.

Definition entry_B : entry_point := EntryPoint "B" object_B "1.0".

(** One configuration at location 1 whose PLUGINS entry is the list
    [xs] at location 1; A is registered officially, B is found through
    its entry point. *)
Definition sample (xs : list string) : state :=
  State {[1%positive := {[CONFIG_KEY := VList 1%positive]}]} {[1%positive := xs]}
        [plugin_A] [entry_B] None [].

(** The empty configuration [{}] at location 1. *)
Definition sample_empty : state :=
  State {[1%positive := ∅]} ∅ [plugin_A] [entry_B] None [].

(** Two configurations, at locations 1 and 2, equal in what they hold
    and sharing nothing: each has its own PLUGINS list with A in it. *)
Definition sample_two : state :=
  State {[1%positive := {[CONFIG_KEY := VList 1%positive]};
          2%positive := {[CONFIG_KEY := VList 2%positive]}]}
        {[1%positive := ["A"]; 2%positive := ["A"]]}
        [plugin_A] [entry_B] None [].

(** The snapshot of the cached registry, when there is one, is a
    dictionary of the store. *)
Definition cache_live (s : state) : bool :=
  match INSTANCE s with
  | None => true
  | Some inst => bool_decide (is_Some (dicts s !! Plugins.config inst))
  end.

(** ** Configuration keys of a plugin *)

(** [BasePlugin.config_key]: [self.name.upper() + "_" + key].  Python's
    [str.upper] is a parameter. *)
Section config_key.
Variable upper : string → string.

Definition config_key (self : BasePlugin.t) (key : string) : string :=
  (upper (BasePlugin.name self) +:+ "_") +:+ key.
End config_key.

(** [str.upper] on strings of ASCII letters, digits and punctuation. *)
Definition upper_ascii_char (c : Ascii.ascii) : Ascii.ascii :=
  let n := Ascii.nat_of_ascii c in
  if bool_decide (97 ≤ n ≤ 122) then Ascii.ascii_of_nat (n - 32) else c.

Fixpoint upper_ascii (s : string) : string :=
  match s with
  | EmptyString => EmptyString
  | String c s' => String (upper_ascii_char c) (upper_ascii s')
  end.

(** An official plugin Z and an entry point C that both hold the hook
    init; Z has a template root, C has the empty string for one.  The
    configuration at location 1 enables both. *)
Definition plugin_Z : BasePlugin.t :=
  BasePlugin.Make OfficialPlugin "Z" ∅ {["p1" := "zed"]} {["init" := ["mysql"]]}
                  (Some "/z/templates") None.

Definition object_C : plugin_object :=
  PluginObject "tutorc" None None (Some (Plain {["init" := ["lms"; "cms"]]}))
               (Some (Plain (Some ""))) None.

Definition entry_C : entry_point := EntryPoint "C" object_C "2.0".

Definition sample_hooks : state :=
  State {[1%positive := {[CONFIG_KEY := VList 1%positive]}]}
        {[1%positive := ["C"; "Z"]]}
        [plugin_Z] [entry_C] None [].

(** A configuration whose PLUGINS entry is the string minio-B. *)
Definition sample_string : state :=
  State {[1%positive := {[CONFIG_KEY := VStr "minio-B"]}]} ∅
        [plugin_A] [entry_B] None [].

(** * Properties *)

(** ** Running computations *)

Lemma bind_Ok {A B} (m : M A) (k : A → M B) s a s' :
  m s = (Ok a, s') → bind m k s = k a s'.
Proof. unfold bind. by intros ->. Qed.

Lemma bind_Raise {A B} (m : M A) (k : A → M B) s e s' :
  m s = (Raise e, s') → bind m k s = (Raise e, s').
Proof. unfold bind. by intros ->. Qed.

Lemma set_calls_nil s : set_calls (λ tr, tr ++ []) s = s.
Proof. destruct s. unfold set_calls. simpl. by rewrite app_nil_r. Qed.

Lemma set_calls_app tr1 tr2 s :
  set_calls (λ tr, tr ++ tr2) (set_calls (λ tr, tr ++ tr1) s)
  = set_calls (λ tr, tr ++ (tr1 ++ tr2)) s.
Proof. destruct s. unfold set_calls. simpl. by rewrite app_assoc. Qed.

(** ** Descriptor construction *)

Lemma get_callable_attr_run {A} plugin attr_name
    (field : plugin_object → option (attribute A)) default s :
  get_callable_attr plugin attr_name field default s
  = (Ok (attr_value (field plugin) default),
     set_calls (λ tr, tr ++ attr_calls (obj_name plugin) attr_name (field plugin)) s).
Proof.
  unfold get_callable_attr, getattr, attr_value, attr_calls.
  destruct (field plugin) as [[r|v]|]; simpl; unfold ret; try by rewrite set_calls_nil.
  done.
Qed.

Lemma BasePlugin_init_run cls name obj s :
  BasePlugin_init cls name obj s
  = (Ok (descriptor cls name obj), set_calls (λ tr, tr ++ init_calls obj) s).
Proof.
  unfold BasePlugin_init.
  repeat (erewrite bind_Ok; [|apply get_callable_attr_run]).
  unfold ret. by rewrite !set_calls_app.
Qed.

(** C7. Building a descriptor from a name and a plugin object never
    raises.  Each of config, patches, hooks and templates resolves to
    the default ({} for the first three, None for templates) when the
    attribute is missing, to the value the attribute returns when it is
    callable, and to the attribute itself otherwise.  The trace grows by
    exactly one call for every callable among these four, in that
    order; command is stored as found and contributes no call. *)
Theorem BasePlugin_init_resolves cls name obj s :
  BasePlugin_init cls name obj s
  = (Ok (BasePlugin.Make cls name
           (attr_value (obj_config obj) ∅)
           (attr_value (obj_patches obj) ∅)
           (attr_value (obj_hooks obj) ∅)
           (attr_value (obj_templates obj) None)
           (obj_command obj)),
     set_calls (λ tr, tr ++ (attr_calls (obj_name obj) "config" (obj_config obj)
                             ++ attr_calls (obj_name obj) "patches" (obj_patches obj)
                             ++ attr_calls (obj_name obj) "hooks" (obj_hooks obj)
                             ++ attr_calls (obj_name obj) "templates" (obj_templates obj))) s).
Proof. apply BasePlugin_init_run. Qed.

Lemma EntrypointPlugin_init_run e s :
  EntrypointPlugin_init e s
  = (Ok (descriptor EntrypointPlugin (ep_name e) (ep_load e)),
     set_calls (λ tr, tr ++ init_calls (ep_load e)) s).
Proof. apply BasePlugin_init_run. Qed.

(** ** The catalogue *)

Lemma mapM_EntrypointPlugin_init eps s :
  mapM EntrypointPlugin_init eps s
  = (Ok (discovered eps), set_calls (λ tr, tr ++ load_calls eps) s).
Proof.
  revert s. induction eps as [|e eps IH]; intros s; simpl.
  - unfold ret. by rewrite set_calls_nil.
  - erewrite bind_Ok; [|apply EntrypointPlugin_init_run].
    erewrite bind_Ok; [|apply IH].
    unfold ret. by rewrite set_calls_app.
Qed.

Lemma EntrypointPlugin_iter_installed_run s :
  EntrypointPlugin_iter_installed s = (Ok (discovered (entry_points s)), after_load s).
Proof.
  unfold EntrypointPlugin_iter_installed, get_state, bind.
  apply mapM_EntrypointPlugin_init.
Qed.

Lemma Plugins_iter_installed_run s :
  Plugins_iter_installed s = (Ok (catalog s), after_load s).
Proof.
  unfold Plugins_iter_installed, catalog. simpl.
  unfold OfficialPlugin_iter_installed, bind, get_state, ret. simpl.
  rewrite EntrypointPlugin_iter_installed_run.
  by destruct (foldl yield_unseen _ _).
Qed.

(** One source fed through the name filter: the names seen grow by the
    names of the source, and what is yielded is a sublist of the source
    with fresh, pairwise different names. *)
Lemma foldl_yield_unseen ps seen out :
  ∃ new,
    foldl yield_unseen (seen, out) ps
    = (seen ∪ list_to_set (BasePlugin.name <$> ps), out ++ new)
    ∧ new `sublist_of` ps
    ∧ NoDup (BasePlugin.name <$> new)
    ∧ (∀ p, p ∈ new → BasePlugin.name p ∉ seen)
    ∧ (∀ p, p ∈ ps → BasePlugin.name p ∉ seen →
            BasePlugin.name p ∈ BasePlugin.name <$> new).
Proof.
  revert seen out. induction ps as [|p ps IH]; intros seen out.
  - exists []. simpl. rewrite app_nil_r.
    split_and!; [f_equal; set_solver|done|constructor|set_solver..].
  - rewrite fmap_cons. cbn [foldl list_to_set]. unfold yield_unseen at 2.
    case_decide as Hp.
    + destruct (IH ({[BasePlugin.name p]} ∪ seen) (out ++ [p]))
        as (new & Hrun & Hsub & Hnd & Hfresh & Hall).
      exists (p :: new). rewrite Hrun, <-app_assoc, fmap_cons.
      split_and!.
      * f_equal. set_solver.
      * by constructor.
      * constructor; [|done]. intros (q & Hq & Hin)%list_elem_of_fmap.
        apply (Hfresh q Hin). rewrite <-Hq. set_solver.
      * intros q [->|Hin]%elem_of_cons; [done|].
        specialize (Hfresh q Hin). set_solver.
      * intros q [->|Hin]%elem_of_cons Hq; [set_solver|].
        destruct (decide (BasePlugin.name q = BasePlugin.name p)) as [->|Hne];
          [set_solver|].
        apply elem_of_cons. right. apply (Hall q Hin). set_solver.
    + destruct (IH seen out) as (new & Hrun & Hsub & Hnd & Hfresh & Hall).
      exists new. rewrite Hrun.
      split_and!; [f_equal; set_solver|by constructor|done..|].
      intros q [->|Hin]%elem_of_cons Hq; [done|by apply Hall].
Qed.

Lemma catalog_split s :
  ∃ official entry,
    catalog s = official ++ entry
    ∧ official `sublist_of` INSTALLED s
    ∧ entry `sublist_of` discovered (entry_points s)
    ∧ NoDup (BasePlugin.name <$> official ++ entry)
    ∧ (∀ p, p ∈ INSTALLED s → BasePlugin.name p ∈ BasePlugin.name <$> official)
    ∧ (∀ p, p ∈ entry → BasePlugin.name p ∉ BasePlugin.name <$> INSTALLED s)
    ∧ (∀ p, p ∈ discovered (entry_points s) →
            BasePlugin.name p ∈ BasePlugin.name <$> official ++ entry).
Proof.
  unfold catalog.
  destruct (foldl_yield_unseen (INSTALLED s) ∅ [])
    as (official & -> & Hsub1 & Hnd1 & _ & Hall1).
  destruct (foldl_yield_unseen (discovered (entry_points s))
              (∅ ∪ list_to_set (BasePlugin.name <$> INSTALLED s)) ([] ++ official))
    as (entry & -> & Hsub2 & Hnd2 & Hfresh2 & Hall2).
  exists official, entry. simpl.
  assert (Hoff : ∀ p, p ∈ INSTALLED s → BasePlugin.name p ∈ BasePlugin.name <$> official).
  { intros p Hp. apply Hall1; set_solver. }
  assert (Hent : ∀ p, p ∈ entry → BasePlugin.name p ∉ BasePlugin.name <$> INSTALLED s).
  { intros p Hp. specialize (Hfresh2 p Hp). set_solver. }
  split_and!; try done.
  - rewrite fmap_app. apply NoDup_app. split_and!; [done| |done].
    intros n (p & -> & Hp)%list_elem_of_fmap (q & Hq & Hin)%list_elem_of_fmap.
    apply (Hent q Hin). rewrite <-Hq. apply list_elem_of_fmap.
    exists p. split; [done|]. by eapply elem_of_sublist.
  - intros p Hp. rewrite fmap_app, elem_of_app.
    destruct (decide (BasePlugin.name p ∈ BasePlugin.name <$> INSTALLED s))
      as [(q & -> & Hq)%list_elem_of_fmap|Hno].
    + left. by apply Hoff.
    + right. apply Hall2; [done|]. set_solver.
Qed.

(** C2. Iterating over the installed plugins never raises and yields
    the officially registered plugins first and the plugins loaded from
    entry points after them, each group in the order of its source.  No
    name is yielded twice, every name of either source is yielded, and
    a name the official source holds is never yielded from an entry
    point: on a collision the official descriptor is the one kept. *)
Theorem iter_installed_official_first_dedup s :
  ∃ found official entry s1 s2,
    EntrypointPlugin_iter_installed s = (Ok found, s1)
    ∧ Plugins_iter_installed s = (Ok (official ++ entry), s2)
    ∧ official `sublist_of` INSTALLED s
    ∧ entry `sublist_of` found
    ∧ NoDup (BasePlugin.name <$> official ++ entry)
    ∧ (∀ p, p ∈ INSTALLED s → BasePlugin.name p ∈ BasePlugin.name <$> official)
    ∧ (∀ p, p ∈ entry → BasePlugin.name p ∉ BasePlugin.name <$> INSTALLED s)
    ∧ (∀ p, p ∈ found → BasePlugin.name p ∈ BasePlugin.name <$> official ++ entry).
Proof.
  destruct (catalog_split s) as (official & entry & Hcat & H).
  exists (discovered (entry_points s)), official, entry, (after_load s), (after_load s).
  split; [apply EntrypointPlugin_iter_installed_run|].
  split; [|exact H].
  by rewrite Plugins_iter_installed_run, Hcat.
Qed.

(** ** Membership in the enabled list *)

Lemma is_installed_run name s :
  is_installed name s
  = (Ok (bool_decide (name ∈ BasePlugin.name <$> catalog s)), after_load s).
Proof.
  unfold is_installed, iter_installed.
  erewrite bind_Ok; [|apply Plugins_iter_installed_run]. done.
Qed.

Lemma is_enabled_run s config name xs :
  config_plugins s config = Some xs →
  is_enabled config name s = (Ok (bool_decide (name ∈ xs)), s).
Proof.
  unfold config_plugins, is_enabled, dict_get, read_dict, bind, ret.
  destruct (dicts s !! config) as [d|]; [|done].
  destruct (d !! CONFIG_KEY) as [[str|l]|]; [done| |].
  - intros Hl. unfold contains, read_list, bind, ret. by rewrite Hl.
  - intros [= <-]. by rewrite bool_decide_eq_false_2 by apply not_elem_of_nil.
Qed.

Lemma config_plugins_list s config d l xs :
  dicts s !! config = Some d → d !! CONFIG_KEY = Some (VList l) →
  lists s !! l = Some xs → config_plugins s config = Some xs.
Proof. unfold config_plugins. by intros -> -> ->. Qed.

Lemma config_plugins_absent s config d :
  dicts s !! config = Some d → d !! CONFIG_KEY = None →
  config_plugins s config = Some [].
Proof. unfold config_plugins. by intros -> ->. Qed.

(** ** Sorting *)

Lemma sorted_Sorted xs : Sorted String.le (sorted xs).
Proof. apply (Sorted_merge_sort String.le). Qed.

Lemma sorted_Permutation xs : sorted xs ≡ₚ xs.
Proof. apply (merge_sort_Permutation String.le). Qed.

Lemma elem_of_sorted x xs : x ∈ sorted xs ↔ x ∈ xs.
Proof. by rewrite sorted_Permutation. Qed.

(** ** Store operations *)

Lemma dict_getitem_run s c k d v :
  dicts s !! c = Some d → d !! k = Some v → dict_getitem c k s = (Ok v, s).
Proof. unfold dict_getitem, read_dict, bind. by intros -> ->. Qed.

Lemma dict_getitem_missing s c k d :
  dicts s !! c = Some d → d !! k = None → dict_getitem c k s = (Raise (KeyError k), s).
Proof. unfold dict_getitem, read_dict, bind. by intros -> ->. Qed.

Lemma dict_contains_run s c k d :
  dicts s !! c = Some d →
  dict_contains c k s = (Ok (bool_decide (is_Some (d !! k))), s).
Proof. unfold dict_contains, read_dict, bind. by intros ->. Qed.

Lemma dict_setitem_run s c k v d :
  dicts s !! c = Some d →
  dict_setitem c k v s = (Ok tt, set_dicts <[c := <[k := v]> d]> s).
Proof. unfold dict_setitem, read_dict, bind. by intros ->. Qed.

Lemma contains_run s x l xs :
  lists s !! l = Some xs → contains x (VList l) s = (Ok (bool_decide (x ∈ xs)), s).
Proof. unfold contains, read_list, bind. by intros ->. Qed.

Lemma list_append_run s x l xs :
  lists s !! l = Some xs →
  list_append (VList l) x s = (Ok tt, set_lists <[l := xs ++ [x]]> s).
Proof. unfold list_append, read_list, bind. by intros ->. Qed.

Lemma list_sort_run s l xs :
  lists s !! l = Some xs →
  list_sort (VList l) s = (Ok tt, set_lists <[l := sorted xs]> s).
Proof. unfold list_sort, read_list, bind. by intros ->. Qed.

Lemma list_remove_run s x l xs xs' :
  lists s !! l = Some xs → remove_first x xs = Some xs' →
  list_remove (VList l) x s = (Ok tt, set_lists <[l := xs']> s).
Proof. unfold list_remove, read_list, bind. by intros -> ->. Qed.

Lemma set_lists_insert_insert l xs ys s :
  set_lists <[l := ys]> (set_lists <[l := xs]> s) = set_lists <[l := ys]> s.
Proof. destruct s. unfold set_lists. simpl. by rewrite insert_insert_eq. Qed.

Lemma set_lists_insert_id l xs s :
  lists s !! l = Some xs → set_lists <[l := xs]> s = s.
Proof. destruct s. unfold set_lists. simpl. intros H. by rewrite insert_id. Qed.

(** One step of a computation whose first action is known. *)
Ltac mstep lem :=
  erewrite bind_Ok;
  [|first [by eapply lem
          |eapply lem; simpl; rewrite ?lookup_insert_eq; by eauto]].

(** ** [enable] *)

Lemma enable_not_installed s config name :
  name ∉ BasePlugin.name <$> catalog s →
  enable config name s
  = (Raise (TutorError ("plugin '" +:+ name +:+ "' is not installed.")), after_load s).
Proof.
  intros Hno. unfold enable. mstep is_installed_run.
  by rewrite bool_decide_eq_false_2.
Qed.

Lemma enable_already s config name xs :
  name ∈ BasePlugin.name <$> catalog s →
  config_plugins s config = Some xs → name ∈ xs →
  enable config name s = (Ok tt, after_load s).
Proof.
  intros Hin Hxs Hx. unfold enable. mstep is_installed_run.
  rewrite bool_decide_eq_true_2 by done. simpl.
  mstep is_enabled_run. by rewrite bool_decide_eq_true_2.
Qed.

Lemma enable_append s config name d l xs :
  name ∈ BasePlugin.name <$> catalog s →
  dicts s !! config = Some d → d !! CONFIG_KEY = Some (VList l) →
  lists s !! l = Some xs → name ∉ xs →
  enable config name s
  = (Ok tt, set_lists <[l := sorted (xs ++ [name])]> (after_load s)).
Proof.
  intros Hin Hd Hk Hl Hx. unfold enable. mstep is_installed_run.
  rewrite bool_decide_eq_true_2 by done. simpl.
  erewrite bind_Ok; [|by eapply is_enabled_run, config_plugins_list].
  rewrite bool_decide_eq_false_2 by done.
  mstep dict_contains_run. rewrite Hk, bool_decide_eq_true_2 by done. simpl.
  unfold ret at 1. unfold bind at 1.
  mstep dict_getitem_run. mstep list_append_run. mstep dict_getitem_run.
  erewrite list_sort_run by (simpl; apply lookup_insert_eq).
  by rewrite set_lists_insert_insert.
Qed.

Lemma enable_create s config name d :
  name ∈ BasePlugin.name <$> catalog s →
  dicts s !! config = Some d → d !! CONFIG_KEY = None →
  enable config name s
  = (Ok tt,
     set_lists <[fresh (dom (lists s)) := sorted [name]]>
       (set_dicts <[config := <[CONFIG_KEY := VList (fresh (dom (lists s)))]> d]>
          (after_load s))).
Proof.
  intros Hin Hd Hk. unfold enable. mstep is_installed_run.
  rewrite bool_decide_eq_true_2 by done. simpl.
  erewrite bind_Ok; [|by eapply is_enabled_run, config_plugins_absent].
  rewrite bool_decide_eq_false_2 by apply not_elem_of_nil.
  mstep dict_contains_run. rewrite Hk.
  rewrite bool_decide_eq_false_2 by (by intros [? ?]). simpl.
  erewrite bind_Ok; cycle 1.
  { erewrite bind_Ok; [|reflexivity]. by eapply dict_setitem_run. }
  erewrite bind_Ok; cycle 1.
  { eapply dict_getitem_run; simpl; apply lookup_insert_eq. }
  erewrite bind_Ok; cycle 1.
  { eapply list_append_run. simpl. apply lookup_insert_eq. }
  erewrite bind_Ok; cycle 1.
  { eapply dict_getitem_run; simpl; apply lookup_insert_eq. }
  erewrite list_sort_run by (simpl; apply lookup_insert_eq).
  unfold set_lists, set_dicts. simpl. by rewrite !insert_insert_eq.
Qed.

(** ** [disable] *)

Lemma remove_first_elem (x : string) (xs : list string) :
  x ∈ xs →
  ∃ xs', remove_first x xs = Some xs'
         ∧ length xs = S (length xs')
         ∧ filter (λ y, y ≠ x) xs' = filter (λ y, y ≠ x) xs.
Proof.
  induction xs as [|y xs IH]; [by intros ?%not_elem_of_nil|].
  intros Hin. simpl. destruct (decide (x = y)) as [<-|Hne].
  - exists xs. split_and!; [done..|]. by rewrite filter_cons_False by naive_solver.
  - destruct IH as (xs' & -> & Hlen & Hfil); [set_solver|].
    exists (y :: xs'). simpl. split_and!; [done|by rewrite Hlen|].
    by rewrite !filter_cons_True, Hfil by done.
Qed.

Lemma filter_ne_id (x : string) (xs : list string) : x ∉ xs → filter (λ y, y ≠ x) xs = xs.
Proof.
  induction xs as [|y xs IH]; [done|].
  intros [Hne Hin]%not_elem_of_cons.
  by rewrite filter_cons_True, IH by done.
Qed.

Lemma disable_loop_run n s config name d l xs :
  dicts s !! config = Some d → d !! CONFIG_KEY = Some (VList l) →
  lists s !! l = Some xs → length xs < n →
  disable_loop n config name s
  = (Ok tt, set_lists <[l := filter (λ y, y ≠ name) xs]> s).
Proof.
  revert s xs. induction n as [|n IH]; intros s xs Hd Hk Hl Hn; [lia|].
  simpl. mstep dict_getitem_run. mstep contains_run.
  case_bool_decide as Hin.
  - destruct (remove_first_elem name xs Hin) as (xs' & Hrm & Hlen & Hfil).
    mstep dict_getitem_run.
    erewrite bind_Ok; [|by eapply list_remove_run].
    erewrite IH; [|done|done|simpl; apply lookup_insert_eq|lia].
    by rewrite set_lists_insert_insert, Hfil.
  - by rewrite filter_ne_id, set_lists_insert_id.
Qed.

Lemma disable_run s config name d l xs :
  dicts s !! config = Some d → d !! CONFIG_KEY = Some (VList l) →
  lists s !! l = Some xs →
  disable config name s
  = (Ok tt, set_lists <[l := filter (λ y, y ≠ name) xs]> s).
Proof.
  intros Hd Hk Hl. unfold disable.
  eapply disable_loop_run; [done..|].
  unfold disable_rounds. rewrite Hd, Hk, Hl. simpl. lia.
Qed.

Lemma disable_missing_key s config name d :
  dicts s !! config = Some d → d !! CONFIG_KEY = None →
  disable config name s = (Raise (KeyError CONFIG_KEY), s).
Proof.
  intros Hd Hk. unfold disable, disable_rounds. rewrite Hd, Hk. simpl.
  erewrite bind_Raise; [done|]. by eapply dict_getitem_missing.
Qed.

(** The bound on the rounds of [disable] is never what stops it. *)
Lemma disable_terminates s config name :
  (disable config name s).1 ≠ Raise Unterminated.
Proof.
  destruct (dicts s !! config) as [d|] eqn:Hd.
  - destruct (d !! CONFIG_KEY) as [[str|l]|] eqn:Hk.
    + unfold disable, disable_rounds. rewrite Hd, Hk. simpl.
      mstep dict_getitem_run. simpl. unfold bind at 1, ret at 1.
      destruct (is_substring name str); [|done].
      mstep dict_getitem_run. done.
    + destruct (lists s !! l) as [xs|] eqn:Hl.
      * by erewrite disable_run.
      * unfold disable, disable_rounds. rewrite Hd, Hk, Hl. simpl.
        mstep dict_getitem_run. simpl. unfold read_list, bind. by rewrite Hl.
    + by erewrite disable_missing_key.
  - unfold disable, disable_rounds. rewrite Hd. simpl.
    unfold dict_getitem, read_dict, bind. by rewrite Hd.
Qed.

(** C6. On a configuration whose PLUGINS entry is a list, disable
    succeeds and leaves in that list, in place, the names that differ
    from the one given, whether the name occurred never, once or many
    times; nothing else in the store changes.  On a configuration
    without the PLUGINS key it raises KeyError for that key and changes
    nothing. *)
Theorem disable_removes_all_or_key_error s config name d :
  dicts s !! config = Some d →
  (∀ l xs, d !! CONFIG_KEY = Some (VList l) → lists s !! l = Some xs →
     disable config name s
     = (Ok tt, set_lists <[l := filter (λ y, y ≠ name) xs]> s))
  ∧ (d !! CONFIG_KEY = None →
     disable config name s = (Raise (KeyError CONFIG_KEY), s)).
Proof.
  intros Hd. split.
  - intros l xs Hk Hl. by eapply disable_run.
  - intros Hk. by eapply disable_missing_key.
Qed.

Lemma disable_removes_all_or_key_error_witness :
  disable 1%positive "A" (sample ["A"; "A"; "B"])
  = (Ok tt, set_lists <[1%positive := ["B"]]> (sample ["A"; "A"; "B"]))
  ∧ disable 1%positive "A" sample_empty = (Raise (KeyError "PLUGINS"), sample_empty).
Proof.
  split.
  - apply (proj1 (disable_removes_all_or_key_error
                    (sample ["A"; "A"; "B"]) 1%positive "A"
                    {[CONFIG_KEY := VList 1%positive]} eq_refl)
                 1%positive ["A"; "A"; "B"]); reflexivity.
  - apply (proj2 (disable_removes_all_or_key_error
                    sample_empty 1%positive "A" ∅ eq_refl)).
    reflexivity.
Defined.

(** ** The claims on [enable] *)

Lemma is_installed_true name s :
  (is_installed name s).1 = Ok true → name ∈ BasePlugin.name <$> catalog s.
Proof.
  rewrite is_installed_run. simpl. intros [= H]. by apply bool_decide_eq_true in H.
Qed.

Lemma is_installed_false name s :
  (is_installed name s).1 = Ok false → name ∉ BasePlugin.name <$> catalog s.
Proof.
  rewrite is_installed_run. simpl. intros [= H]. by apply bool_decide_eq_false in H.
Qed.

(** C5. When the name is not installed, enable raises TutorError with
    the not-installed message and the store of dictionaries and lists
    is what it was: no key of the configuration is created or
    changed. *)
Theorem enable_not_installed_unchanged s config name :
  (is_installed name s).1 = Ok false →
  ∃ s', enable config name s
        = (Raise (TutorError ("plugin '" +:+ name +:+ "' is not installed.")), s')
        ∧ dicts s' = dicts s ∧ lists s' = lists s.
Proof.
  intros Hno%is_installed_false. exists (after_load s).
  by rewrite enable_not_installed.
Qed.

Lemma enable_not_installed_unchanged_witness :
  ∃ s', enable 1%positive "unknown" sample_empty
        = (Raise (TutorError "plugin 'unknown' is not installed."), s')
        ∧ dicts s' = dicts sample_empty ∧ lists s' = lists sample_empty.
Proof.
  apply (enable_not_installed_unchanged sample_empty 1%positive "unknown").
  vm_compute. reflexivity.
Defined.

Lemma config_plugins_inv s config xs :
  config_plugins s config = Some xs →
  ∃ d, dicts s !! config = Some d
       ∧ ((d !! CONFIG_KEY = None ∧ xs = [])
          ∨ ∃ l, d !! CONFIG_KEY = Some (VList l) ∧ lists s !! l = Some xs).
Proof.
  unfold config_plugins. destruct (dicts s !! config) as [d|]; [|done].
  intros H. exists d. split; [done|].
  destruct (d !! CONFIG_KEY) as [[str|l]|]; [done|right; by exists l|left].
  split; [done|]. by injection H.
Qed.

Lemma count_sorted_append (P : string) (xs : list string) :
  P ∉ xs → length (filter (λ y, y = P) (sorted (xs ++ [P]))) = 1.
Proof.
  intros Hno. rewrite sorted_Permutation, filter_app, length_app.
  rewrite filter_cons_True, filter_nil by done. simpl.
  assert (filter (λ y, y = P) xs = []) as ->; [|done].
  clear -Hno. induction xs as [|y xs IH]; [done|].
  apply not_elem_of_cons in Hno as [Hne Hno].
  by rewrite filter_cons_False, IH by naive_solver.
Qed.

Lemma count_elem_pos (P : string) (xs : list string) :
  P ∈ xs → 0 < length (filter (λ y, y = P) xs).
Proof.
  intros Hin. assert (P ∈ filter (λ y, y = P) xs) as Hf by by apply list_elem_of_filter.
  destruct (filter _ xs); [by apply not_elem_of_nil in Hf|simpl; lia].
Qed.

(** C4, as the code has it.  For an installed name and a configuration
    whose PLUGINS entry is absent or a list, enable succeeds and the
    name is enabled afterwards.  When the name was not enabled, the
    PLUGINS entry exists afterwards and its list is the ascending sort
    of the old names and the new one, which it holds exactly once.
    When the name was enabled already, enable changes neither a
    dictionary nor a list.  So the list is sorted and holds the name
    once after the call whenever it was sorted and held the name at
    most once before it. *)
Theorem enable_enables_and_sorts s config P xs :
  (is_installed P s).1 = Ok true →
  config_plugins s config = Some xs →
  ∃ s' xs',
    enable config P s = (Ok tt, s')
    ∧ is_enabled config P s' = (Ok true, s')
    ∧ config_plugins s' config = Some xs'
    ∧ (P ∈ xs → xs' = xs ∧ dicts s' = dicts s ∧ lists s' = lists s)
    ∧ (P ∉ xs →
       xs' = sorted (xs ++ [P])
       ∧ Sorted String.le xs'
       ∧ length (filter (λ y, y = P) xs') = 1
       ∧ ∃ d' l', dicts s' !! config = Some d' ∧ d' !! CONFIG_KEY = Some (VList l'))
    ∧ (Sorted String.le xs → length (filter (λ y, y = P) xs) ≤ 1 →
       Sorted String.le xs' ∧ length (filter (λ y, y = P) xs') = 1).
Proof.
  intros Hinst%is_installed_true Hcfg.
  destruct (decide (P ∈ xs)) as [Hin|Hno].
  - exists (after_load s), xs.
    split; [by eapply enable_already|].
    split; [by rewrite (is_enabled_run _ _ _ xs), bool_decide_eq_true_2|].
    split; [done|]. split; [done|]. split; [done|].
    intros Hs Hc. split; [done|]. apply count_elem_pos in Hin. lia.
  - assert (Hpost : Sorted String.le (sorted (xs ++ [P]))
                    ∧ length (filter (λ y, y = P) (sorted (xs ++ [P]))) = 1).
    { split; [apply sorted_Sorted|by apply count_sorted_append]. }
    assert (Hmem : P ∈ sorted (xs ++ [P])).
    { apply elem_of_sorted. set_solver. }
    destruct (config_plugins_inv _ _ _ Hcfg) as (d & Hd & [[Hk ->]|(l & Hk & Hl)]).
    + eexists _, (sorted ([] ++ [P])).
      split; [by eapply enable_create|].
      assert (Hcfg' : config_plugins
                (set_lists <[fresh (dom (lists s)) := sorted [P]]>
                   (set_dicts
                      <[config := <[CONFIG_KEY := VList (fresh (dom (lists s)))]> d]>
                      (after_load s))) config = Some (sorted ([] ++ [P]))).
      { eapply config_plugins_list; simpl; apply lookup_insert_eq. }
      split; [by rewrite (is_enabled_run _ _ _ _ Hcfg'), bool_decide_eq_true_2|].
      split; [done|]. split; [done|]. split; [|done].
      intros _. split; [done|]. destruct Hpost as [? ?]. split_and!; [done..|].
      eexists _, _. simpl. split; apply lookup_insert_eq.
    + eexists _, (sorted (xs ++ [P])).
      split; [by eapply enable_append|].
      assert (Hcfg' : config_plugins
                (set_lists <[l := sorted (xs ++ [P])]> (after_load s)) config
              = Some (sorted (xs ++ [P]))).
      { eapply config_plugins_list; simpl; [done..|apply lookup_insert_eq]. }
      split; [by rewrite (is_enabled_run _ _ _ _ Hcfg'), bool_decide_eq_true_2|].
      split; [done|]. split; [done|]. split; [|done].
      intros _. split; [done|]. destruct Hpost as [? ?]. split_and!; [done..|].
      by exists d, l.
Qed.

Lemma enable_enables_and_sorts_witness :
  ∃ s' xs',
    enable 1%positive "A" (sample ["B"]) = (Ok tt, s')
    ∧ is_enabled 1%positive "A" s' = (Ok true, s')
    ∧ config_plugins s' 1%positive = Some xs'
    ∧ ("A" ∈ ["B"] → xs' = ["B"]
       ∧ dicts s' = dicts (sample ["B"]) ∧ lists s' = lists (sample ["B"]))
    ∧ ("A" ∉ ["B"] →
       xs' = sorted (["B"] ++ ["A"])
       ∧ Sorted String.le xs'
       ∧ length (filter (λ y, y = "A") xs') = 1
       ∧ ∃ d' l', dicts s' !! 1%positive = Some d'
                  ∧ d' !! CONFIG_KEY = Some (VList l'))
    ∧ (Sorted String.le ["B"] → length (filter (λ y, y = "A") ["B"]) ≤ 1 →
       Sorted String.le xs' ∧ length (filter (λ y, y = "A") xs') = 1).
Proof.
  apply (enable_enables_and_sorts (sample ["B"]) 1%positive "A" ["B"]).
  - vm_compute. reflexivity.
  - vm_compute. reflexivity.
Defined.

(** C4 as written does not hold: with PLUGINS = ["B", "A", "A"] and A
    installed, enable is a no-op and the list stays unsorted with A
    twice. *)
Lemma enable_keeps_unsorted_duplicates :
  ¬ ((is_installed "A" (sample ["B"; "A"; "A"])).1 = Ok true →
     ∃ s' xs',
       enable 1%positive "A" (sample ["B"; "A"; "A"]) = (Ok tt, s')
       ∧ is_enabled 1%positive "A" s' = (Ok true, s')
       ∧ config_plugins s' 1%positive = Some xs'
       ∧ Sorted String.le xs'
       ∧ length (filter (λ y, y = "A") xs') ≤ 1).
Proof.
  intros H. destruct H as (s' & xs' & Hrun & _ & Hcfg & Hsorted & Hdup).
  { vm_compute. reflexivity. }
  assert (Hs' : enable 1%positive "A" (sample ["B"; "A"; "A"])
                = (Ok tt, after_load (sample ["B"; "A"; "A"]))).
  { vm_compute. reflexivity. }
  rewrite Hs' in Hrun. injection Hrun as <-.
  assert (Hxs : config_plugins (after_load (sample ["B"; "A"; "A"])) 1%positive
                = Some ["B"; "A"; "A"]) by (vm_compute; reflexivity).
  rewrite Hxs in Hcfg. injection Hcfg as <-.
  vm_compute in Hdup. lia.
Qed.

(** ** Sequences of [enable] and [disable] *)

Lemma foldM_app {A B} (f : B → A → M B) acc l1 l2 s :
  foldM f acc (l1 ++ l2) s = bind (foldM f acc l1) (λ acc', foldM f acc' l2) s.
Proof.
  revert acc s. induction l1 as [|x l1 IH]; intros acc s; simpl; [reflexivity|].
  unfold bind at 1 2 3. destruct (f acc x s) as [[acc'|e] s1]; [|done].
  apply IH.
Qed.

Lemma apply_operation_run s config P d l xs op :
  P ∈ BasePlugin.name <$> catalog s →
  dicts s !! config = Some d → d !! CONFIG_KEY = Some (VList l) →
  lists s !! l = Some xs →
  ∃ s' xs',
    apply_operation config P op s = (Ok tt, s')
    ∧ catalog s' = catalog s
    ∧ dicts s' !! config = Some d
    ∧ lists s' !! l = Some xs'
    ∧ (P ∈ xs' ↔ op = Enable).
Proof.
  intros Hinst Hd Hk Hl. destruct op; simpl.
  - destruct (decide (P ∈ xs)) as [Hin|Hno].
    + exists (after_load s), xs.
      split.
      { eapply (enable_already _ _ _ xs); [done| |done].
        by eapply config_plugins_list. }
      split; [reflexivity|]. split; [exact Hd|]. split; [exact Hl|]. by split.
    + eexists _, (sorted (xs ++ [P])). split; [by eapply enable_append|].
      split_and!; [done|done|simpl; apply lookup_insert_eq|].
      split; [done|]. intros _. apply elem_of_sorted. set_solver.
  - eexists _, (filter (λ y, y ≠ P) xs). split; [by eapply disable_run|].
    split_and!; [done|done|simpl; apply lookup_insert_eq|].
    split; [|done]. by intros [? _]%list_elem_of_filter.
Qed.

Lemma run_operations_ok ops : ∀ s config P d l xs,
  P ∈ BasePlugin.name <$> catalog s →
  dicts s !! config = Some d → d !! CONFIG_KEY = Some (VList l) →
  lists s !! l = Some xs →
  ∃ s' xs',
    run_operations config P ops s = (Ok tt, s')
    ∧ catalog s' = catalog s
    ∧ dicts s' !! config = Some d
    ∧ lists s' !! l = Some xs'.
Proof.
  induction ops as [|op ops IH]; intros s config P d l xs Hinst Hd Hk Hl.
  - by exists s, xs.
  - destruct (apply_operation_run s config P d l xs op Hinst Hd Hk Hl)
      as (s1 & xs1 & Hrun1 & Hcat1 & Hd1 & Hl1 & _).
    destruct (IH s1 config P d l xs1) as (s2 & xs2 & Hrun2 & Hcat2 & Hd2 & Hl2);
      [by rewrite Hcat1|done..|].
    exists s2, xs2. split; [|by rewrite Hcat2, Hcat1].
    unfold run_operations. simpl. erewrite bind_Ok; [|exact Hrun1]. exact Hrun2.
Qed.

(** C8. For an installed name and a configuration whose PLUGINS entry
    is a list, every sequence of enable and disable calls on that name
    succeeds, however long and in whatever order, and the name is
    enabled afterwards exactly when the last call was enable. *)
Theorem last_operation_decides s config P d l xs ops op :
  (is_installed P s).1 = Ok true →
  dicts s !! config = Some d → d !! CONFIG_KEY = Some (VList l) →
  lists s !! l = Some xs →
  ∃ s', run_operations config P (ops ++ [op]) s = (Ok tt, s')
        ∧ is_enabled config P s'
          = (Ok (match op with Enable => true | Disable => false end), s').
Proof.
  intros Hinst%is_installed_true Hd Hk Hl.
  destruct (run_operations_ok ops s config P d l xs Hinst Hd Hk Hl)
    as (s1 & xs1 & Hrun1 & Hcat1 & Hd1 & Hl1).
  destruct (apply_operation_run s1 config P d l xs1 op)
    as (s2 & xs2 & Hrun2 & Hcat2 & Hd2 & Hl2 & Hmem); [by rewrite Hcat1|done..|].
  exists s2. split.
  - unfold run_operations. rewrite foldM_app.
    erewrite bind_Ok; [|exact Hrun1]. simpl.
    erewrite bind_Ok; [|exact Hrun2]. done.
  - rewrite (is_enabled_run s2 config P xs2) by by eapply config_plugins_list.
    f_equal. f_equal. destruct op.
    + apply bool_decide_eq_true_2. by apply Hmem.
    + apply bool_decide_eq_false_2. by intros ?%Hmem.
Qed.

Lemma last_operation_decides_witness :
  ∃ s', run_operations 1%positive "A" ([Enable; Disable; Disable; Enable] ++ [Disable])
          (sample ["A"; "B"]) = (Ok tt, s')
        ∧ is_enabled 1%positive "A" s' = (Ok false, s').
Proof.
  apply (last_operation_decides (sample ["A"; "B"]) 1%positive "A"
           {[CONFIG_KEY := VList 1%positive]} 1%positive ["A"; "B"]
           [Enable; Disable; Disable; Enable] Disable).
  - vm_compute. reflexivity.
  - reflexivity.
  - reflexivity.
  - reflexivity.
Defined.

(** ** [deepcopy] *)

Lemma resolve_subseteq L L' v :
  L ⊆ L' → is_Some (resolve L v) → resolve L' v = resolve L v.
Proof.
  intros Hsub. destruct v as [x|l]; simpl; [done|].
  destruct (L !! l) as [xs|] eqn:Hl; [|by intros [? ?]].
  intros _. by rewrite (lookup_weaken _ _ _ _ Hl Hsub).
Qed.

Lemma set_lists_set_lists f g s :
  set_lists f (set_lists g s) = set_lists (f ∘ g) s.
Proof. by destruct s. Qed.

Lemma deepcopy_value_run L0 s memo v :
  copying L0 (lists s) memo →
  is_Some (resolve L0 v) →
  ∃ memo' v' L',
    deepcopy_value memo v s = (Ok (memo', v'), set_lists (λ _, L') s)
    ∧ copying L0 L' memo'
    ∧ lists s ⊆ L'
    ∧ resolve L' v' = resolve L0 v
    ∧ (∀ l', v' = VList l' → l' ∉ dom L0).
Proof.
  intros [Hsub Hmemo] Hv. destruct v as [x|l]; simpl.
  - exists memo, (VStr x), (lists s). split_and!; try done.
    unfold ret. by destruct s.
  - destruct (memo !! l) as [l'|] eqn:Hl.
    + destruct (Hmemo l l' Hl) as (Hfresh & _ & Hsame).
      exists memo, (VList l'), (lists s). split_and!; try done.
      * unfold ret. by destruct s.
      * simpl. by rewrite Hsame.
      * by intros ? [= <-].
    + simpl in Hv. destruct (L0 !! l) as [xs|] eqn:HL0; [|by destruct Hv].
      assert (Hread : lists s !! l = Some xs) by by eapply lookup_weaken.
      set (l' := fresh (dom (lists s))).
      assert (Hl' : lists s !! l' = None).
      { apply not_elem_of_dom. apply is_fresh. }
      exists (<[l := l']> memo), (VList l'), (<[l' := xs]> (lists s)).
      split_and!.
      * unfold read_list, new_list, bind, ret. rewrite Hread. done.
      * split; [etrans; [exact Hsub|by apply insert_subseteq]|].
        intros l1 l1'. rewrite lookup_insert. case_decide as Heq.
        -- intros [= <-]. subst l1. rewrite lookup_insert_eq, HL0.
           split_and!; [|done..].
           intros Hin. apply not_elem_of_dom in Hl'. apply Hl'.
           by eapply (subseteq_dom L0), Hin.
        -- intros Hm. destruct (Hmemo l1 l1' Hm) as (Hf & Hs & Hsame).
           split_and!; [done..|].
           rewrite lookup_insert_ne; [done|].
           intros <-. rewrite Hl' in Hsame. destruct Hs as [? Hs]. congruence.
      * by apply insert_subseteq.
      * simpl. by rewrite lookup_insert_eq.
      * intros ? [= <-] Hin. apply not_elem_of_dom in Hl'. apply Hl'.
        by eapply (subseteq_dom L0), Hin.
Qed.

Lemma deepcopy_item_run s memo dacc k v memo' v' s' :
  deepcopy_value memo v s = (Ok (memo', v'), s') →
  deepcopy_item (memo, dacc) (k, v) s = (Ok (memo', <[k := v']> dacc), s').
Proof. intros H. unfold deepcopy_item, bind. by rewrite H. Qed.

Lemma deepcopy_fold L0 kvs : ∀ s memo dacc,
  NoDup kvs.*1 →
  copying L0 (lists s) memo →
  (∀ k v, (k, v) ∈ kvs → is_Some (resolve L0 v)) →
  ∃ memo' dacc' L',
    foldM deepcopy_item (memo, dacc) kvs s
    = (Ok (memo', dacc'), set_lists (λ _, L') s)
    ∧ copying L0 L' memo'
    ∧ lists s ⊆ L'
    ∧ (∀ k, k ∉ kvs.*1 → dacc' !! k = dacc !! k)
    ∧ (∀ k v, (k, v) ∈ kvs →
         ∃ v', dacc' !! k = Some v'
               ∧ resolve L' v' = resolve L0 v
               ∧ (∀ l', v' = VList l' → l' ∉ dom L0)).
Proof.
  induction kvs as [|[k v] kvs IH]; intros s memo dacc Hnd Hcopy Hvalid.
  - exists memo, dacc, (lists s). simpl. unfold ret.
    split_and!; [by destruct s|done..|]. by intros ?? ?%not_elem_of_nil.
  - rewrite fmap_cons in Hnd. apply NoDup_cons in Hnd as [Hk Hnd]. simpl in Hk.
    destruct (deepcopy_value_run L0 s memo v Hcopy) as
      (memo1 & v1 & L1 & Hrun1 & Hcopy1 & Hsub1 & Hres1 & Hfresh1).
    { apply (Hvalid k). by left. }
    destruct (IH (set_lists (λ _, L1) s) memo1 (<[k := v1]> dacc) Hnd Hcopy1) as
      (memo2 & dacc2 & L2 & Hrun2 & Hcopy2 & Hsub2 & Hother2 & Hitems2).
    { intros k' v' Hin. apply (Hvalid k'). by right. }
    exists memo2, dacc2, L2. split_and!.
    + cbn [foldM]. erewrite bind_Ok; [|by apply deepcopy_item_run].
      by rewrite Hrun2, set_lists_set_lists.
    + done.
    + by etrans.
    + intros k' Hk'. rewrite fmap_cons in Hk'. apply not_elem_of_cons in Hk' as [? ?].
      rewrite Hother2 by done. by rewrite lookup_insert_ne.
    + intros k' v' [[= -> ->]|Hin]%elem_of_cons; [|by apply Hitems2].
      exists v1. rewrite Hother2 by done. rewrite lookup_insert_eq.
      split_and!; [done| |done].
      rewrite <-Hres1. apply resolve_subseteq; [done|].
      rewrite Hres1. apply (Hvalid k). by left.
Qed.

Lemma deepcopy_run s config d :
  dicts s !! config = Some d →
  map_Forall (λ _ v, is_Some (resolve (lists s) v)) d →
  ∃ d' L',
    deepcopy config s
    = (Ok (fresh (dom (dicts s))),
       set_dicts <[fresh (dom (dicts s)) := d']> (set_lists (λ _, L') s))
    ∧ lists s ⊆ L'
    ∧ resolve L' <$> d' = resolve (lists s) <$> d
    ∧ (∀ k l', d' !! k = Some (VList l') → l' ∉ dom (lists s)).
Proof.
  intros Hd Hvalid.
  destruct (deepcopy_fold (lists s) (map_to_list d) s ∅ ∅) as
    (memo & d' & L' & Hrun & Hcopy & Hsub & Hother & Hitems).
  { apply NoDup_fst_map_to_list. }
  { split; [done|]. intros ?? ?. by rewrite lookup_empty in *. }
  { intros k v Hin%elem_of_map_to_list. by apply (Hvalid k). }
  exists d', L'. split_and!; [|done| |].
  - unfold deepcopy, read_dict. unfold bind at 1. rewrite Hd.
    erewrite bind_Ok; [|exact Hrun]. done.
  - apply map_eq. intros k. rewrite !lookup_fmap.
    destruct (d !! k) as [v|] eqn:Hk.
    + destruct (Hitems k v) as (v' & -> & Hres & _); [by apply elem_of_map_to_list|].
      simpl. by rewrite Hres.
    + rewrite Hother, lookup_empty; [done|].
      intros ([k' v] & -> & Hin%elem_of_map_to_list)%list_elem_of_fmap.
      simpl in Hk. congruence.
  - intros k l' Hk.
    destruct (d !! k) as [v|] eqn:Hdk.
    + destruct (Hitems k v) as (v' & Hv' & _ & Hfresh); [by apply elem_of_map_to_list|].
      apply Hfresh. congruence.
    + rewrite Hother, lookup_empty in Hk; [done|].
      intros ([k' v] & -> & Hin%elem_of_map_to_list)%list_elem_of_fmap.
      simpl in Hdk. congruence.
Qed.

(** ** Enabled plugins *)

Lemma is_enabled_valid s config name d :
  dicts s !! config = Some d →
  (∀ v, d !! CONFIG_KEY = Some v → is_Some (resolve (lists s) v)) →
  is_enabled config name s = (Ok (enabled_in s config name), s).
Proof.
  intros Hd Hv. unfold is_enabled, enabled_in, dict_get, read_dict. unfold bind at 1 2.
  rewrite Hd. simpl. destruct (d !! CONFIG_KEY) as [[str|l]|] eqn:Hk; simpl; [done| |done].
  destruct (Hv _ eq_refl) as [r Hr]. simpl in Hr.
  destruct (lists s !! l) as [xs|] eqn:Hl; [|done].
  simpl. unfold read_list, bind. by rewrite Hl.
Qed.

Lemma enabled_in_resolve s s' config config' d d' name :
  dicts s !! config = Some d → dicts s' !! config' = Some d' →
  resolve (lists s') <$> d' = resolve (lists s) <$> d →
  enabled_in s' config' name = enabled_in s config name.
Proof.
  intros Hd Hd' Heq. unfold enabled_in. rewrite Hd, Hd'.
  assert ((resolve (lists s') <$> d') !! CONFIG_KEY
          = (resolve (lists s) <$> d) !! CONFIG_KEY) as H by by rewrite Heq.
  rewrite !lookup_fmap in H. by rewrite H.
Qed.

Lemma enabled_in_plugins s config xs name :
  config_plugins s config = Some xs →
  enabled_in s config name = bool_decide (name ∈ xs).
Proof.
  unfold config_plugins, enabled_in.
  destruct (dicts s !! config) as [d|]; [|done].
  destruct (d !! CONFIG_KEY) as [[str|l]|]; simpl; [done| |].
  - by intros ->.
  - intros [= <-]. symmetry. apply bool_decide_eq_false_2, not_elem_of_nil.
Qed.

Lemma filterM_is_enabled s config d ps :
  dicts s !! config = Some d →
  (∀ v, d !! CONFIG_KEY = Some v → is_Some (resolve (lists s) v)) →
  filterM (λ plugin, is_enabled config (BasePlugin.name plugin)) ps s
  = (Ok (filter (λ p, enabled_in s config (BasePlugin.name p) = true) ps), s).
Proof.
  intros Hd Hv. induction ps as [|p ps IH]; [done|].
  cbn [filterM]. erewrite bind_Ok; [|by eapply is_enabled_valid].
  erewrite bind_Ok; [|exact IH]. unfold ret.
  destruct (enabled_in s config (BasePlugin.name p)) eqn:Hp.
  - by rewrite filter_cons_True.
  - by rewrite filter_cons_False by (by rewrite Hp).
Qed.

Lemma Plugins_iter_enabled_run s self d :
  dicts s !! Plugins.config self = Some d →
  (∀ v, d !! CONFIG_KEY = Some v → is_Some (resolve (lists s) v)) →
  Plugins_iter_enabled self s
  = (Ok (enabled_plugins s (Plugins.config self)), after_load s).
Proof.
  intros Hd Hv. unfold Plugins_iter_enabled.
  erewrite bind_Ok; [|apply Plugins_iter_installed_run].
  by erewrite (filterM_is_enabled (after_load s)).
Qed.

(** ** Ordered dictionaries *)

Lemma Dict_set_fresh {V} k (v : V) d :
  k ∉ Dict.keys d → Dict.set k v d = d ++ [(k, v)].
Proof.
  unfold Dict.keys. induction d as [|[k' v'] d IH]; [done|].
  intros H. rewrite fmap_cons in H. apply not_elem_of_cons in H as [Hne Hno]. simpl in *.
  rewrite decide_False by done. by rewrite IH.
Qed.

Lemma Dict_get_Some {V} k (v : V) d :
  NoDup (Dict.keys d) → Dict.get k d = Some v ↔ (k, v) ∈ d.
Proof.
  unfold Dict.keys. induction d as [|[k' v'] d IH].
  - intros _. split; [done|]. by intros ?%not_elem_of_nil.
  - rewrite fmap_cons. intros [Hk Hnd]%NoDup_cons. simpl in Hk.
    cbn [Dict.get]. case_decide as Heq.
    + subst k'. split.
      * intros [= ->]. by left.
      * intros [[= ->]|Hin]%elem_of_cons; [done|].
        destruct Hk. apply list_elem_of_fmap. by exists (k, v).
    + rewrite IH by done. split; [by right|].
      intros [[= -> ->]|Hin]%elem_of_cons; done.
Qed.

Lemma Dict_get_is_Some {V} k (d : Dict.t V) :
  k ∈ Dict.keys d → is_Some (Dict.get k d).
Proof.
  unfold Dict.keys. induction d as [|[k' v'] d IH].
  - by intros ?%not_elem_of_nil.
  - rewrite fmap_cons. intros [->|Hin]%elem_of_cons; cbn [Dict.get].
    + by rewrite decide_True.
    + case_decide; [done|by apply IH].
Qed.

(** ** The indices of the registry *)

Lemma index_add_lookup {V} name (index : gmap string (Dict.t V)) k (v : V) key :
  default Dict.empty (index_add name index (k, v) !! key)
  = if decide (k = key)
    then Dict.set name v (default Dict.empty (index !! key))
    else default Dict.empty (index !! key).
Proof.
  unfold index_add. destruct (decide (k = key)) as [<-|Hne].
  - rewrite lookup_insert_eq. simpl.
    destruct (index !! k) as [inner|] eqn:Hk.
    + by rewrite decide_False, Hk by done.
    + by rewrite decide_True, lookup_insert_eq by done.
  - rewrite lookup_insert_ne by done.
    case_decide; [by rewrite lookup_insert_ne|done].
Qed.

Lemma foldl_index_add {V} name (items : list (string * V)) : ∀ index key,
  NoDup items.*1 →
  default Dict.empty (foldl (index_add name) index items !! key)
  = match (list_to_map items : gmap string V) !! key with
    | Some v => Dict.set name v (default Dict.empty (index !! key))
    | None => default Dict.empty (index !! key)
    end.
Proof.
  induction items as [|[k v] items IH]; intros index key Hnd; [done|].
  rewrite fmap_cons in Hnd. apply NoDup_cons in Hnd as [Hk Hnd]. simpl in Hk.
  cbn [foldl list_to_map]. rewrite IH by done. rewrite index_add_lookup.
  simpl. case_decide as Heq.
  - subst key. rewrite lookup_insert_eq.
    by rewrite (not_elem_of_list_to_map_1 _ k).
  - by rewrite lookup_insert_ne.
Qed.

Lemma index_merge {V} name (m : gmap string V) index key :
  default Dict.empty (foldl (index_add name) index (map_to_list m) !! key)
  = match m !! key with
    | Some v => Dict.set name v (default Dict.empty (index !! key))
    | None => default Dict.empty (index !! key)
    end.
Proof.
  rewrite foldl_index_add by apply NoDup_fst_map_to_list.
  by rewrite list_to_map_to_list.
Qed.

Lemma contributions_cons {V} (field : BasePlugin.t → gmap string V) key p ps :
  contributions field key (p :: ps)
  = contributions field key [p] ++ contributions field key ps.
Proof. unfold contributions. simpl. by destruct (field p !! key). Qed.

Lemma roots_cons p ps : roots (p :: ps) = roots [p] ++ roots ps.
Proof.
  unfold roots. simpl. destruct (BasePlugin.templates_root p); [|done].
  by case_decide.
Qed.

(** The index built from [ps] holds under [key], after what it held,
    the contributions of [ps] in their order. *)
Lemma index_fold {V} (field : BasePlugin.t → gmap string V)
    (index : Plugins.t → gmap string (Dict.t V)) key :
  (∀ self p, index (Plugins_add self p)
             = foldl (index_add (BasePlugin.name p)) (index self)
                     (map_to_list (field p))) →
  ∀ ps self,
    NoDup (BasePlugin.name <$> ps) →
    (∀ p, p ∈ ps →
          BasePlugin.name p ∉ Dict.keys (default Dict.empty (index self !! key))) →
    default Dict.empty (index (foldl Plugins_add self ps) !! key)
    = default Dict.empty (index self !! key) ++ contributions field key ps.
Proof.
  intros Hstep. induction ps as [|p ps IH]; intros self Hnd Hfresh.
  - simpl. by rewrite app_nil_r.
  - rewrite fmap_cons in Hnd. apply NoDup_cons in Hnd as [Hp Hnd].
    assert (Hinner : default Dict.empty (index (Plugins_add self p) !! key)
                     = default Dict.empty (index self !! key)
                       ++ contributions field key [p]).
    { rewrite Hstep, index_merge. unfold contributions. simpl.
      destruct (field p !! key) as [v|]; simpl; [|by rewrite app_nil_r].
      apply Dict_set_fresh, Hfresh. by left. }
    cbn [foldl]. rewrite IH; [|done|].
    + by rewrite Hinner, <-app_assoc, <-contributions_cons.
    + intros q Hq. rewrite Hinner. unfold Dict.keys. rewrite fmap_app.
      apply not_elem_of_app. split; [apply Hfresh; by right|].
      unfold contributions. simpl.
      destruct (field p !! key) as [v|]; simpl; [|apply not_elem_of_nil].
      apply not_elem_of_cons. split; [|apply not_elem_of_nil].
      intros Heq. apply Hp. rewrite <-Heq. apply list_elem_of_fmap. by exists q.
Qed.

Lemma roots_fold ps : ∀ self,
  NoDup (BasePlugin.name <$> ps) →
  (∀ p, p ∈ ps → BasePlugin.name p ∉ Dict.keys (Plugins.template_roots self)) →
  Plugins.template_roots (foldl Plugins_add self ps)
  = Plugins.template_roots self ++ roots ps.
Proof.
  induction ps as [|p ps IH]; intros self Hnd Hfresh.
  - simpl. by rewrite app_nil_r.
  - rewrite fmap_cons in Hnd. apply NoDup_cons in Hnd as [Hp Hnd].
    assert (Hinner : Plugins.template_roots (Plugins_add self p)
                     = Plugins.template_roots self ++ roots [p]).
    { unfold Plugins_add, roots. simpl.
      destruct (BasePlugin.templates_root p) as [root|]; [|by rewrite app_nil_r].
      case_decide; simpl; [by rewrite app_nil_r|].
      apply Dict_set_fresh, Hfresh. by left. }
    cbn [foldl]. rewrite IH; [|done|].
    + by rewrite Hinner, <-app_assoc, <-roots_cons.
    + intros q Hq. rewrite Hinner. unfold Dict.keys. rewrite fmap_app.
      apply not_elem_of_app. split; [apply Hfresh; by right|].
      unfold roots. simpl.
      destruct (BasePlugin.templates_root p) as [root|]; [|apply not_elem_of_nil].
      case_decide; simpl; [apply not_elem_of_nil|].
      apply not_elem_of_cons. split; [|apply not_elem_of_nil].
      intros Heq. apply Hp. rewrite <-Heq. apply list_elem_of_fmap. by exists q.
Qed.

(** ** Building the registry *)

Lemma catalog_NoDup s : NoDup (BasePlugin.name <$> catalog s).
Proof.
  destruct (catalog_split s) as (official & entry & -> & _ & _ & Hnd & _). done.
Qed.

Lemma enabled_plugins_NoDup s config :
  NoDup (BasePlugin.name <$> enabled_plugins s config).
Proof.
  apply (sublist_NoDup _ (BasePlugin.name <$> catalog s)); [apply catalog_NoDup|].
  apply fmap_sublist, sublist_filter.
Qed.

Lemma foldl_Plugins_add_config ps : ∀ self,
  Plugins.config (foldl Plugins_add self ps) = Plugins.config self.
Proof. induction ps as [|p ps IH]; intros self; [done|]. cbn [foldl]. by rewrite IH. Qed.

Lemma registry_patches c ps key :
  NoDup (BasePlugin.name <$> ps) →
  default Dict.empty (Plugins.patches (registry c ps) !! key)
  = contributions BasePlugin.patches key ps.
Proof.
  intros Hnd. unfold registry.
  rewrite (index_fold BasePlugin.patches Plugins.patches); [done..|].
  intros p _. simpl. rewrite lookup_empty. apply not_elem_of_nil.
Qed.

Lemma registry_hooks c ps key :
  NoDup (BasePlugin.name <$> ps) →
  default Dict.empty (Plugins.hooks (registry c ps) !! key)
  = contributions BasePlugin.hooks key ps.
Proof.
  intros Hnd. unfold registry.
  rewrite (index_fold BasePlugin.hooks Plugins.hooks); [done..|].
  intros p _. simpl. rewrite lookup_empty. apply not_elem_of_nil.
Qed.

Lemma registry_template_roots c ps :
  NoDup (BasePlugin.name <$> ps) →
  Plugins.template_roots (registry c ps) = roots ps.
Proof.
  intros Hnd. unfold registry. rewrite roots_fold; [done..|].
  intros p _. apply not_elem_of_nil.
Qed.

Lemma elem_of_contributions {V} (field : BasePlugin.t → gmap string V) key ps n v :
  (n, v) ∈ contributions field key ps
  ↔ ∃ p, p ∈ ps ∧ BasePlugin.name p = n ∧ field p !! key = Some v.
Proof.
  unfold contributions. rewrite list_elem_of_omap. split.
  - intros (p & Hp & Hf). exists p. destruct (field p !! key); [|done].
    simpl in Hf. by injection Hf as <- <-.
  - intros (p & Hp & <- & Hf). exists p. by rewrite Hf.
Qed.

Lemma contributions_keys {V} (field : BasePlugin.t → gmap string V) key ps :
  Dict.keys (contributions field key ps) `sublist_of` BasePlugin.name <$> ps.
Proof.
  unfold Dict.keys, contributions. induction ps as [|p ps IH]; [done|].
  simpl. destruct (field p !! key); simpl; by constructor.
Qed.

Lemma roots_keys ps : Dict.keys (roots ps) `sublist_of` BasePlugin.name <$> ps.
Proof.
  unfold Dict.keys, roots. induction ps as [|p ps IH]; [done|].
  simpl. destruct (BasePlugin.templates_root p); [|by constructor].
  case_decide; simpl; by constructor.
Qed.

Lemma Plugins_init_run s config d :
  dicts s !! config = Some d →
  valid_dict s d →
  ∃ d' L',
    Plugins_init config s
    = (Ok (registry (fresh (dom (dicts s))) (enabled_plugins s config)),
       after_load (set_dicts <[fresh (dom (dicts s)) := d']> (set_lists (λ _, L') s)))
    ∧ lists s ⊆ L'
    ∧ resolve L' <$> d' = resolve (lists s) <$> d
    ∧ (∀ k l', d' !! k = Some (VList l') → l' ∉ dom (lists s)).
Proof.
  intros Hd Hvalid.
  destruct (deepcopy_run s config d Hd Hvalid) as (d' & L' & Hcopy & Hsub & Hres & Hfresh).
  exists d', L'. split; [|done].
  unfold Plugins_init. erewrite bind_Ok; [|exact Hcopy].
  set (c' := fresh (dom (dicts s))).
  set (s' := set_dicts <[c' := d']> (set_lists (λ _, L') s)).
  assert (Hd' : dicts s' !! c' = Some d') by (simpl; apply lookup_insert_eq).
  erewrite bind_Ok; cycle 1.
  { eapply (Plugins_iter_enabled_run s' _ d'); [exact Hd'|].
    intros v' Hv'.
    assert ((resolve L' <$> d') !! CONFIG_KEY = Some (resolve L' v')) as Hl
      by by rewrite lookup_fmap, Hv'.
    rewrite Hres, lookup_fmap in Hl.
    destruct (d !! CONFIG_KEY) as [v|] eqn:Hv; [|done].
    injection Hl as Hl. simpl. rewrite <-Hl. by apply (Hvalid CONFIG_KEY). }
  unfold ret, registry. f_equal. f_equal. f_equal.
  unfold enabled_plugins. apply list_filter_iff. intros p.
  by rewrite (enabled_in_resolve s s' config c' d d').
Qed.

(** ** Queries on the registry *)

Lemma mapM_getitem {V} (d : Dict.t V) ks s :
  (∀ k, k ∈ ks → k ∈ Dict.keys d) →
  ∃ out,
    mapM (λ plugin,
            match Dict.get plugin d with
            | Some content => ret (plugin, content)
            | None => raise (KeyError plugin)
            end) ks s = (Ok out, s)
    ∧ out.*1 = ks
    ∧ (∀ n c, (n, c) ∈ out → Dict.get n d = Some c).
Proof.
  induction ks as [|k ks IH]; intros Hks.
  - exists []. split_and!; [done..|]. by intros ?? ?%not_elem_of_nil.
  - destruct IH as (out & Hrun & Hfst & Hget); [intros k' Hk'; apply Hks; by right|].
    destruct (Dict_get_is_Some k d) as [c Hc]; [apply Hks; by left|].
    exists ((k, c) :: out). split_and!.
    + cbn [mapM]. unfold bind at 1. rewrite Hc. unfold ret at 1.
      erewrite bind_Ok; [|exact Hrun]. done.
    + by rewrite fmap_cons, Hfst.
    + intros n c' [[= -> ->]|Hin]%elem_of_cons; [done|by apply Hget].
Qed.

Lemma Plugins_iter_patches_run self name s :
  NoDup (Dict.keys (default Dict.empty (Plugins.patches self !! name))) →
  ∃ out,
    Plugins_iter_patches self name s = (Ok out, s)
    ∧ out.*1 = sorted (Dict.keys (default Dict.empty (Plugins.patches self !! name)))
    ∧ (∀ n c, (n, c) ∈ out
              ↔ (n, c) ∈ default Dict.empty (Plugins.patches self !! name)).
Proof.
  intros Hnd. unfold Plugins_iter_patches.
  set (inner := default Dict.empty (Plugins.patches self !! name)) in *.
  destruct (mapM_getitem inner (sorted (Dict.keys inner)) s) as (out & Hrun & Hfst & Hget).
  { intros k. by rewrite elem_of_sorted. }
  exists out. split_and!; [done..|].
  intros n c. split.
  - intros Hin. apply Dict_get_Some; [done|by apply Hget].
  - intros Hin.
    assert (n ∈ out.*1) as ([n' c'] & Hn & Hin')%list_elem_of_fmap.
    { rewrite Hfst, elem_of_sorted. apply list_elem_of_fmap. by exists (n, c). }
    simpl in Hn. subst n'.
    assert (Hout := Hin'). apply Hget in Hin'. apply Dict_get_Some in Hin; [|done].
    congruence.
Qed.

Lemma StronglySorted_fst {V} (l : list (string * V)) :
  StronglySorted String.le l.*1 → StronglySorted (λ a b, String.le a.1 b.1) l.
Proof.
  induction l as [|[k v] l IH]; [constructor|].
  rewrite fmap_cons. intros [Hl Hk]%StronglySorted_inv.
  constructor; [by apply IH|]. exact (proj1 (Forall_fmap fst (String.le k) l) Hk).
Qed.

Lemma sorted_pairs_unique {V} (l1 l2 : list (string * V)) :
  Sorted String.le l1.*1 → Sorted String.le l2.*1 →
  NoDup l1.*1 → NoDup l2.*1 →
  (∀ x, x ∈ l1 ↔ x ∈ l2) →
  l1 = l2.
Proof.
  intros Hs1 Hs2 Hnd1 Hnd2 Hiff.
  apply (StronglySorted_unique_strong (λ a b, String.le a.1 b.1)).
  - intros [k1 v1] [k2 v2] Hin1 Hin2 Hle1 Hle2. simpl in *.
    assert (k1 = k2) as <- by by apply (anti_symm String.le).
    apply Hiff in Hin2.
    assert (H1 := proj2 (Dict_get_Some k1 v1 l1 Hnd1) Hin1).
    assert (H2 := proj2 (Dict_get_Some k1 v2 l1 Hnd1) Hin2). congruence.
  - apply StronglySorted_fst. apply Sorted_StronglySorted; [apply _|]. done.
  - apply StronglySorted_fst. apply Sorted_StronglySorted; [apply _|]. done.
  - apply NoDup_Permutation; [by eapply NoDup_fmap_1..|done].
Qed.

Lemma resolve_eq_valid L L' (d d' : gmap string value) :
  resolve L' <$> d' = resolve L <$> d →
  map_Forall (λ _ v, is_Some (resolve L v)) d →
  map_Forall (λ _ v, is_Some (resolve L' v)) d'.
Proof.
  intros Hres Hvalid k v' Hv'.
  assert ((resolve L' <$> d') !! k = Some (resolve L' v')) as Hl
    by by rewrite lookup_fmap, Hv'.
  rewrite Hres, lookup_fmap in Hl.
  destruct (d !! k) as [v|] eqn:Hv; [|done].
  injection Hl as Hl. rewrite <-Hl. by apply (Hvalid k).
Qed.

Lemma enabled_plugins_resolve s s' config config' d d' :
  dicts s !! config = Some d → dicts s' !! config' = Some d' →
  resolve (lists s') <$> d' = resolve (lists s) <$> d →
  catalog s' = catalog s →
  enabled_plugins s' config' = enabled_plugins s config.
Proof.
  intros Hd Hd' Hres Hcat. unfold enabled_plugins. rewrite Hcat.
  apply list_filter_iff. intros p.
  by rewrite (enabled_in_resolve s s' config config' d d').
Qed.

(** What a registry built from a valid configuration is and answers. *)
Lemma Plugins_init_built s config d :
  dicts s !! config = Some d →
  valid_dict s d →
  ∃ s1 d1,
    Plugins_init config s
    = (Ok (registry (fresh (dom (dicts s))) (enabled_plugins s config)), s1)
    ∧ dicts s1 = <[fresh (dom (dicts s)) := d1]> (dicts s)
    ∧ lists s ⊆ lists s1
    ∧ resolve (lists s1) <$> d1 = resolve (lists s) <$> d
    ∧ (∀ k l', d1 !! k = Some (VList l') → l' ∉ dom (lists s))
    ∧ INSTALLED s1 = INSTALLED s
    ∧ entry_points s1 = entry_points s
    ∧ INSTANCE s1 = INSTANCE s
    ∧ Plugins_iter_enabled (registry (fresh (dom (dicts s))) (enabled_plugins s config)) s1
      = (Ok (enabled_plugins s config), after_load s1).
Proof.
  intros Hd Hvalid.
  destruct (Plugins_init_run s config d Hd Hvalid) as (d1 & L1 & Hrun & Hsub & Hres & Hfresh).
  eexists _, d1. split; [exact Hrun|].
  split_and!; [done..|].
  set (c1 := fresh (dom (dicts s))).
  set (s1 := after_load _).
  assert (Hd1 : dicts s1 !! c1 = Some d1) by (simpl; apply lookup_insert_eq).
  erewrite (Plugins_iter_enabled_run s1 _ d1).
  - unfold registry. rewrite foldl_Plugins_add_config. simpl.
    by rewrite (enabled_plugins_resolve s s1 config c1 d d1).
  - unfold registry. by rewrite foldl_Plugins_add_config.
  - intros v Hv. by apply (resolve_eq_valid (lists s) L1 d d1 Hres Hvalid CONFIG_KEY).
Qed.

(** ** Patches in the order of the plugin names *)

Lemma registry_iter_patches c ps X s :
  NoDup (BasePlugin.name <$> ps) →
  ∃ out,
    Plugins_iter_patches (registry c ps) X s = (Ok out, s)
    ∧ Sorted String.le out.*1
    ∧ NoDup out.*1
    ∧ (∀ n content, (n, content) ∈ out
         ↔ ∃ p, p ∈ ps ∧ BasePlugin.name p = n
                ∧ BasePlugin.patches p !! X = Some content).
Proof.
  intros Hnd.
  assert (Hkeys : NoDup (Dict.keys (default Dict.empty
                           (Plugins.patches (registry c ps) !! X)))).
  { rewrite registry_patches by done.
    eapply sublist_NoDup; [exact Hnd|apply contributions_keys]. }
  destruct (Plugins_iter_patches_run (registry c ps) X s Hkeys) as (out & Hrun & Hfst & Hmem).
  exists out. split; [done|]. rewrite Hfst. split_and!.
  - apply sorted_Sorted.
  - by rewrite sorted_Permutation.
  - intros n content. rewrite Hmem, registry_patches by done.
    apply elem_of_contributions.
Qed.

(** C1. The registry built from a valid configuration answers a patch
    name with the pairs of plugin name and content of exactly the
    enabled plugins that hold the patch, without raising and with the
    plugin names in ascending order, each once.  The answer does not
    depend on the order of the plugins: a registry built from any
    other store and configuration whose enabled plugins are the same
    up to their order gives the same sequence. *)
Theorem iter_patches_sorted_by_plugin_name s config d X :
  dicts s !! config = Some d →
  valid_dict s d →
  ∃ r s1 enabled s2 out,
    Plugins_init config s = (Ok r, s1)
    ∧ Plugins_iter_enabled r s1 = (Ok enabled, s2)
    ∧ Plugins_iter_patches r X s1 = (Ok out, s1)
    ∧ Sorted String.le out.*1
    ∧ NoDup out.*1
    ∧ (∀ n content, (n, content) ∈ out
         ↔ ∃ p, p ∈ enabled ∧ BasePlugin.name p = n
                ∧ BasePlugin.patches p !! X = Some content)
    ∧ (∀ s' config' d' r' s1' enabled' s2',
         dicts s' !! config' = Some d' →
         valid_dict s' d' →
         Plugins_init config' s' = (Ok r', s1') →
         Plugins_iter_enabled r' s1' = (Ok enabled', s2') →
         enabled' ≡ₚ enabled →
         Plugins_iter_patches r' X s1' = (Ok out, s1')).
Proof.
  intros Hd Hvalid.
  destruct (Plugins_init_built s config d Hd Hvalid)
    as (s1 & d1 & Hinit & _ & _ & _ & _ & _ & _ & _ & Hen).
  destruct (registry_iter_patches (fresh (dom (dicts s))) (enabled_plugins s config)
              X s1 (enabled_plugins_NoDup s config))
    as (out & Hrun & Hsorted & Hnd & Hmem).
  eexists _, s1, _, _, out. split; [exact Hinit|]. split; [exact Hen|].
  split_and!; [done..|].
  intros s' config' d' r' s1' enabled' s2' Hd' Hvalid' Hinit' Hen' Hperm.
  destruct (Plugins_init_built s' config' d' Hd' Hvalid')
    as (s1'' & d1' & Hinit'' & _ & _ & _ & _ & _ & _ & _ & Hen'').
  rewrite Hinit'' in Hinit'. injection Hinit' as <- <-.
  rewrite Hen'' in Hen'. injection Hen' as <- <-.
  destruct (registry_iter_patches (fresh (dom (dicts s'))) (enabled_plugins s' config')
              X s1'' (enabled_plugins_NoDup s' config'))
    as (out' & Hrun' & Hsorted' & Hnd' & Hmem').
  rewrite Hrun'. f_equal. f_equal.
  apply sorted_pairs_unique; [done..|].
  intros [n content]. rewrite Hmem, Hmem'.
  split; intros (p & Hp & Hn & Hc); exists p; split_and!; try done.
  - by rewrite <-Hperm.
  - by rewrite Hperm.
Qed.

Lemma iter_patches_sorted_by_plugin_name_witness :
  ∃ r s1 enabled s2 out,
    Plugins_init 1%positive (sample ["B"; "A"]) = (Ok r, s1)
    ∧ Plugins_iter_enabled r s1 = (Ok enabled, s2)
    ∧ Plugins_iter_patches r "p1" s1 = (Ok out, s1)
    ∧ Sorted String.le out.*1
    ∧ NoDup out.*1
    ∧ (∀ n content, (n, content) ∈ out
         ↔ ∃ p, p ∈ enabled ∧ BasePlugin.name p = n
                ∧ BasePlugin.patches p !! "p1" = Some content)
    ∧ (∀ s' config' d' r' s1' enabled' s2',
         dicts s' !! config' = Some d' →
         valid_dict s' d' →
         Plugins_init config' s' = (Ok r', s1') →
         Plugins_iter_enabled r' s1' = (Ok enabled', s2') →
         enabled' ≡ₚ enabled →
         Plugins_iter_patches r' "p1" s1' = (Ok out, s1')).
Proof.
  apply (iter_patches_sorted_by_plugin_name (sample ["B"; "A"]) 1%positive
           {[CONFIG_KEY := VList 1%positive]} "p1").
  - reflexivity.
  - apply (bool_decide_unpack _). vm_compute. exact I.
Defined.

(** The scenario of the specification: A and B both patch p1. *)
Example iter_patches_scenario :
  (iter_patches 1%positive "p1" (sample ["A"; "B"])).1
  = Ok [("A", "foo"); ("B", "bar")]
  ∧ (iter_patches 1%positive "p1" (sample ["B"; "A"])).1
    = Ok [("A", "foo"); ("B", "bar")].
Proof. split; vm_compute; reflexivity. Qed.

(** ** Names nobody contributed to, names nobody installed *)

Lemma contributions_nil {V} (field : BasePlugin.t → gmap string V) key ps :
  (∀ p, p ∈ ps → field p !! key = None) → contributions field key ps = [].
Proof.
  intros Hnone. unfold contributions. induction ps as [|p ps IH]; [done|].
  simpl. rewrite (Hnone p) by by left. simpl. apply IH.
  intros q Hq. apply Hnone. by right.
Qed.

Lemma Plugins_iter_patches_total self name s :
  ∃ out, Plugins_iter_patches self name s = (Ok out, s).
Proof.
  unfold Plugins_iter_patches.
  set (inner := default Dict.empty (Plugins.patches self !! name)).
  destruct (mapM_getitem inner (sorted (Dict.keys inner)) s) as (out & Hrun & _).
  { intros k. by rewrite elem_of_sorted. }
  by exists out.
Qed.

(** C10. Looking a name up in the patch index or in the hook index of
    a registry never raises.  On the registry built from a valid
    configuration, a patch name under which no enabled plugin holds a
    patch, and a hook name under which no enabled plugin holds a hook,
    are answered with the empty sequence. *)
Theorem lookups_are_total_and_empty_without_contribution s config d name :
  dicts s !! config = Some d →
  valid_dict s d →
  ∃ r s1 enabled s2,
    Plugins_init config s = (Ok r, s1)
    ∧ Plugins_iter_enabled r s1 = (Ok enabled, s2)
    ∧ (∀ s', ∃ out, Plugins_iter_patches r name s' = (Ok out, s'))
    ∧ (∀ s', ∃ out, Plugins_iter_hooks r name s' = (Ok out, s'))
    ∧ ((∀ p, p ∈ enabled → BasePlugin.patches p !! name = None) →
       ∀ s', Plugins_iter_patches r name s' = (Ok [], s'))
    ∧ ((∀ p, p ∈ enabled → BasePlugin.hooks p !! name = None) →
       ∀ s', Plugins_iter_hooks r name s' = (Ok [], s')).
Proof.
  intros Hd Hvalid.
  destruct (Plugins_init_built s config d Hd Hvalid)
    as (s1 & d1 & Hinit & _ & _ & _ & _ & _ & _ & _ & Hen).
  eexists _, s1, _, _. split; [exact Hinit|]. split; [exact Hen|].
  split_and!.
  - intros s'. apply Plugins_iter_patches_total.
  - intros s'. by eexists.
  - intros Hnone s'. unfold Plugins_iter_patches.
    rewrite registry_patches by apply enabled_plugins_NoDup.
    by rewrite contributions_nil.
  - intros Hnone s'. unfold Plugins_iter_hooks.
    rewrite registry_hooks by apply enabled_plugins_NoDup.
    by rewrite contributions_nil.
Qed.

Lemma lookups_are_total_and_empty_without_contribution_witness :
  ∃ r s1 enabled s2,
    Plugins_init 1%positive (sample ["A"; "B"]) = (Ok r, s1)
    ∧ Plugins_iter_enabled r s1 = (Ok enabled, s2)
    ∧ (∀ s', ∃ out, Plugins_iter_patches r "p2" s' = (Ok out, s'))
    ∧ (∀ s', ∃ out, Plugins_iter_hooks r "p2" s' = (Ok out, s'))
    ∧ ((∀ p, p ∈ enabled → BasePlugin.patches p !! "p2" = None) →
       ∀ s', Plugins_iter_patches r "p2" s' = (Ok [], s'))
    ∧ ((∀ p, p ∈ enabled → BasePlugin.hooks p !! "p2" = None) →
       ∀ s', Plugins_iter_hooks r "p2" s' = (Ok [], s')).
Proof.
  apply (lookups_are_total_and_empty_without_contribution (sample ["A"; "B"])
           1%positive {[CONFIG_KEY := VList 1%positive]} "p2").
  - reflexivity.
  - apply (bool_decide_unpack _). vm_compute. exact I.
Defined.

(** C9. When the PLUGINS list of a valid configuration holds a name
    that no installed plugin has, building the registry and iterating
    over its enabled plugins raise nothing.  The enabled plugins are
    exactly the installed plugins whose names are in the list, in the
    order of the catalogue; the name without a plugin is not among
    them and is a key of no entry of the patch index, of no entry of
    the hook index and not of the template roots. *)
Theorem unmatched_enabled_name_is_skipped s config d l xs unknown :
  dicts s !! config = Some d →
  valid_dict s d →
  d !! CONFIG_KEY = Some (VList l) →
  lists s !! l = Some xs →
  unknown ∈ xs →
  (is_installed unknown s).1 = Ok false →
  ∃ r s1 installed s2 enabled s3,
    Plugins_init config s = (Ok r, s1)
    ∧ Plugins_iter_installed s1 = (Ok installed, s2)
    ∧ Plugins_iter_enabled r s1 = (Ok enabled, s3)
    ∧ enabled = filter (λ p, BasePlugin.name p ∈ xs) installed
    ∧ (unknown ∉ BasePlugin.name <$> enabled)
    ∧ (∀ key, unknown ∉ Dict.keys (default Dict.empty (Plugins.patches r !! key)))
    ∧ (∀ key, unknown ∉ Dict.keys (default Dict.empty (Plugins.hooks r !! key)))
    ∧ unknown ∉ Dict.keys (Plugins.template_roots r).
Proof.
  intros Hd Hvalid Hk Hl Hin Hno%is_installed_false.
  destruct (Plugins_init_built s config d Hd Hvalid)
    as (s1 & d1 & Hinit & _ & _ & _ & _ & HI & HE & _ & Hen).
  assert (Hcat : catalog s1 = catalog s) by (unfold catalog; by rewrite HI, HE).
  assert (Hnotin : unknown ∉ BasePlugin.name <$> enabled_plugins s config).
  { intros Hu. apply Hno. eapply elem_of_sublist; [exact Hu|].
    apply fmap_sublist, sublist_filter. }
  assert (Hkeys : ∀ ks, ks `sublist_of` BasePlugin.name <$> enabled_plugins s config →
                        unknown ∉ ks).
  { intros ks Hsub Hu. apply Hnotin. by eapply elem_of_sublist. }
  eexists _, s1, (catalog s1), _, _, _.
  split; [exact Hinit|]. split; [apply Plugins_iter_installed_run|].
  split; [exact Hen|]. split_and!.
  - rewrite Hcat. unfold enabled_plugins. apply list_filter_iff. intros p.
    rewrite (enabled_in_plugins s config xs) by by eapply config_plugins_list.
    by rewrite bool_decide_eq_true.
  - done.
  - intros key. rewrite registry_patches by apply enabled_plugins_NoDup.
    apply Hkeys, contributions_keys.
  - intros key. rewrite registry_hooks by apply enabled_plugins_NoDup.
    apply Hkeys, contributions_keys.
  - rewrite registry_template_roots by apply enabled_plugins_NoDup.
    apply Hkeys, roots_keys.
Qed.

Lemma unmatched_enabled_name_is_skipped_witness :
  ∃ r s1 installed s2 enabled s3,
    Plugins_init 1%positive (sample ["A"; "ghost"]) = (Ok r, s1)
    ∧ Plugins_iter_installed s1 = (Ok installed, s2)
    ∧ Plugins_iter_enabled r s1 = (Ok enabled, s3)
    ∧ enabled = filter (λ p, BasePlugin.name p ∈ ["A"; "ghost"]) installed
    ∧ ("ghost" ∉ BasePlugin.name <$> enabled)
    ∧ (∀ key, "ghost" ∉ Dict.keys (default Dict.empty (Plugins.patches r !! key)))
    ∧ (∀ key, "ghost" ∉ Dict.keys (default Dict.empty (Plugins.hooks r !! key)))
    ∧ "ghost" ∉ Dict.keys (Plugins.template_roots r).
Proof.
  apply (unmatched_enabled_name_is_skipped (sample ["A"; "ghost"]) 1%positive
           {[CONFIG_KEY := VList 1%positive]} 1%positive ["A"; "ghost"] "ghost").
  - reflexivity.
  - apply (bool_decide_unpack _). vm_compute. exact I.
  - reflexivity.
  - reflexivity.
  - apply (bool_decide_unpack _). vm_compute. exact I.
  - vm_compute. reflexivity.
Defined.

(** ** The cache *)

Lemma dict_ne_run s c1 c2 d1 d2 :
  dicts s !! c1 = Some d1 → dicts s !! c2 = Some d2 →
  dict_ne c1 c2 s
  = (Ok (bool_decide (resolve (lists s) <$> d1 ≠ resolve (lists s) <$> d2)), s).
Proof. unfold dict_ne, read_dict, bind. by intros -> ->. Qed.

Lemma instance_cached s config inst d_inst d :
  INSTANCE s = Some inst →
  dicts s !! Plugins.config inst = Some d_inst →
  dicts s !! config = Some d →
  resolve (lists s) <$> d_inst = resolve (lists s) <$> d →
  Plugins_instance config s = (Ok inst, s).
Proof.
  intros Hinst Hdi Hd Heq. unfold Plugins_instance, get_state. unfold bind at 1.
  rewrite Hinst. erewrite bind_Ok; [|by eapply dict_ne_run].
  by rewrite bool_decide_eq_false_2 by (by intros ?).
Qed.

Lemma instance_build s config d r s1 :
  dicts s !! config = Some d →
  (INSTANCE s = None
   ∨ ∃ inst d_inst, INSTANCE s = Some inst
       ∧ dicts s !! Plugins.config inst = Some d_inst
       ∧ resolve (lists s) <$> d_inst ≠ resolve (lists s) <$> d) →
  Plugins_init config s = (Ok r, s1) →
  Plugins_instance config s = (Ok r, set_INSTANCE (Some r) s1).
Proof.
  intros Hd Hstale Hinit. unfold Plugins_instance, get_state. unfold bind at 1.
  destruct Hstale as [->|(inst & d_inst & -> & Hdi & Hne)].
  - erewrite bind_Ok; [|exact Hinit]. done.
  - erewrite bind_Ok; [|by eapply dict_ne_run].
    rewrite bool_decide_eq_true_2 by done.
    erewrite bind_Ok; [|exact Hinit]. done.
Qed.

Lemma resolve_fmap_subseteq L L' (d : gmap string value) :
  L ⊆ L' → map_Forall (λ _ v, is_Some (resolve L v)) d →
  resolve L' <$> d = resolve L <$> d.
Proof.
  intros Hsub Hvalid. apply map_eq. intros k. rewrite !lookup_fmap.
  destruct (d !! k) as [v|] eqn:Hv; [|done]. simpl. f_equal.
  apply resolve_subseteq; [done|]. by apply (Hvalid k).
Qed.

(** After [Plugins.instance(config)] on a valid configuration the cache
    holds the registry returned, whose snapshot equals the
    configuration and shares no PLUGINS list with it. *)
Lemma instance_post s config d l xs :
  dicts s !! config = Some d →
  valid_dict s d →
  d !! CONFIG_KEY = Some (VList l) →
  lists s !! l = Some xs →
  cache_separate s l = true →
  ∃ r s1 d_r,
    Plugins_instance config s = (Ok r, s1)
    ∧ INSTANCE s1 = Some r
    ∧ dicts s1 !! Plugins.config r = Some d_r
    ∧ resolve (lists s1) <$> d_r = resolve (lists s1) <$> d
    ∧ d_r !! CONFIG_KEY ≠ Some (VList l)
    ∧ dicts s1 !! config = Some d
    ∧ lists s ⊆ lists s1
    ∧ INSTALLED s1 = INSTALLED s
    ∧ entry_points s1 = entry_points s.
Proof.
  intros Hd Hvalid Hk Hl Hsep.
  assert (Hbuild :
    (INSTANCE s = None
     ∨ ∃ inst d_inst, INSTANCE s = Some inst
         ∧ dicts s !! Plugins.config inst = Some d_inst
         ∧ resolve (lists s) <$> d_inst ≠ resolve (lists s) <$> d) →
    ∃ r s1 d_r,
      Plugins_instance config s = (Ok r, s1)
      ∧ INSTANCE s1 = Some r
      ∧ dicts s1 !! Plugins.config r = Some d_r
      ∧ resolve (lists s1) <$> d_r = resolve (lists s1) <$> d
      ∧ d_r !! CONFIG_KEY ≠ Some (VList l)
      ∧ dicts s1 !! config = Some d
      ∧ lists s ⊆ lists s1
      ∧ INSTALLED s1 = INSTALLED s
      ∧ entry_points s1 = entry_points s).
  { intros Hstale.
    destruct (Plugins_init_built s config d Hd Hvalid)
      as (s1 & d1 & Hinit & Hdicts & Hsub & Hres & Hfresh & HI & HE & _ & _).
    eexists _, (set_INSTANCE _ s1), d1.
    split; [by eapply instance_build|]. simpl.
    unfold registry. rewrite foldl_Plugins_add_config. simpl.
    split_and!; [done| | | | |done..].
    - rewrite Hdicts. apply lookup_insert_eq.
    - rewrite Hres. symmetry. by apply resolve_fmap_subseteq.
    - intros Hkl. apply (Hfresh _ _ Hkl). by apply elem_of_dom.
    - rewrite Hdicts, lookup_insert_ne; [done|].
      intros Heq. apply (is_fresh (dom (dicts s))). rewrite Heq.
      by apply elem_of_dom. }
  unfold cache_separate in Hsep.
  destruct (INSTANCE s) as [inst|] eqn:Hinst; [|apply Hbuild; by left].
  destruct (dicts s !! Plugins.config inst) as [d_inst|] eqn:Hdi; [|done].
  apply bool_decide_eq_true in Hsep.
  destruct (decide (resolve (lists s) <$> d_inst = resolve (lists s) <$> d)) as [Heq|Hne].
  - exists inst, s, d_inst. split; [by eapply instance_cached|]. done.
  - apply Hbuild. right. by exists inst, d_inst.
Qed.

Lemma valid_dict_write s (d : gmap string value) l xs' (L2 : gmap loc (list string)) :
  valid_dict s d → L2 = <[l := xs']> (lists s) →
  map_Forall (λ _ v, is_Some (resolve L2 v)) d.
Proof.
  intros Hvalid -> k v Hv. specialize (Hvalid k v Hv). simpl in Hvalid.
  destruct v as [x|l0]; simpl in *; [done|].
  destruct (decide (l = l0)) as [->|Hne].
  - by rewrite lookup_insert_eq.
  - by rewrite lookup_insert_ne.
Qed.

(** A change to the PLUGINS list of the configuration makes the
    snapshot of the cached registry differ from the configuration. *)
Lemma snapshot_stale (L1 L2 : gmap loc (list string)) (d d_r : gmap string value)
    l xs xs' :
  resolve L1 <$> d_r = resolve L1 <$> d →
  d !! CONFIG_KEY = Some (VList l) →
  d_r !! CONFIG_KEY ≠ Some (VList l) →
  L1 !! l = Some xs →
  L2 = <[l := xs']> L1 →
  xs' ≠ xs →
  resolve L2 <$> d_r ≠ resolve L2 <$> d.
Proof.
  intros Heq Hk Hsep Hl -> Hxs Heq2.
  assert (H1 : (resolve L1 <$> d_r) !! CONFIG_KEY = (resolve L1 <$> d) !! CONFIG_KEY)
    by by rewrite Heq.
  assert (H2 : (resolve (<[l := xs']> L1) <$> d_r) !! CONFIG_KEY
               = (resolve (<[l := xs']> L1) <$> d) !! CONFIG_KEY) by by rewrite Heq2.
  rewrite !lookup_fmap, Hk in H1, H2. simpl in H1, H2.
  rewrite Hl in H1. rewrite lookup_insert_eq in H2. simpl in H1, H2.
  destruct (d_r !! CONFIG_KEY) as [[x|l_r]|]; simpl in *; [done| |done].
  assert (l ≠ l_r) by congruence.
  rewrite lookup_insert_ne in H2 by done.
  destruct (L1 !! l_r); simpl in *; congruence.
Qed.

(** C3.  On a configuration that is a dictionary of the store:
    - when the cache holds a registry whose snapshot equals the
      configuration, key by key and list by list, that registry is
      returned and nothing changes, whether or not the snapshot and
      the configuration are one object;
    - when the cache is empty or its snapshot differs, a registry is
      built from the configuration, stored in the cache and returned;
      its snapshot is a new dictionary that equals the configuration
      and whose lists are new objects;
    - after a call on a configuration and any change of the contents
      of its PLUGINS list in place, the next call builds a new
      registry, stores it, and the enabled plugins of that registry
      are the installed plugins whose names are in the changed list. *)
Theorem instance_caches_by_deep_equality s config d :
  dicts s !! config = Some d →
  (∀ inst d_inst,
     INSTANCE s = Some inst →
     dicts s !! Plugins.config inst = Some d_inst →
     resolve (lists s) <$> d_inst = resolve (lists s) <$> d →
     Plugins_instance config s = (Ok inst, s))
  ∧ (valid_dict s d →
     (INSTANCE s = None
      ∨ ∃ inst d_inst, INSTANCE s = Some inst
          ∧ dicts s !! Plugins.config inst = Some d_inst
          ∧ resolve (lists s) <$> d_inst ≠ resolve (lists s) <$> d) →
     ∃ r s1 d1,
       Plugins_init config s = (Ok r, s1)
       ∧ Plugins_instance config s = (Ok r, set_INSTANCE (Some r) s1)
       ∧ (Plugins.config r ∉ dom (dicts s))
       ∧ dicts s1 !! Plugins.config r = Some d1
       ∧ resolve (lists s1) <$> d1 = resolve (lists s) <$> d
       ∧ (∀ k l', d1 !! k = Some (VList l') → l' ∉ dom (lists s)))
  ∧ (valid_dict s d →
     ∀ l xs xs',
       d !! CONFIG_KEY = Some (VList l) →
       lists s !! l = Some xs →
       cache_separate s l = true →
       xs' ≠ xs →
       ∃ r s1,
         Plugins_instance config s = (Ok r, s1)
         ∧ ∀ s2,
             dicts s2 = dicts s1 →
             lists s2 = <[l := xs']> (lists s1) →
             INSTALLED s2 = INSTALLED s1 →
             entry_points s2 = entry_points s1 →
             INSTANCE s2 = INSTANCE s1 →
             ∃ r' s3 installed s4 enabled s5,
               Plugins_instance config s2 = (Ok r', s3)
               ∧ Plugins.config r' ≠ Plugins.config r
               ∧ INSTANCE s3 = Some r'
               ∧ Plugins_iter_installed s3 = (Ok installed, s4)
               ∧ Plugins_iter_enabled r' s3 = (Ok enabled, s5)
               ∧ enabled = filter (λ p, BasePlugin.name p ∈ xs') installed).
Proof.
  intros Hd. split_and!.
  - intros inst d_inst Hinst Hdi Heq. by eapply instance_cached.
  - intros Hvalid Hstale.
    destruct (Plugins_init_built s config d Hd Hvalid)
      as (s1 & d1 & Hinit & Hdicts & Hsub & Hres & Hfresh & _).
    eexists _, s1, d1. split; [exact Hinit|].
    split; [by eapply instance_build|].
    unfold registry. rewrite foldl_Plugins_add_config. simpl.
    split_and!; [apply is_fresh| |done..].
    rewrite Hdicts. apply lookup_insert_eq.
  - intros Hvalid l xs xs' Hk Hl Hsep Hxs.
    destruct (instance_post s config d l xs Hd Hvalid Hk Hl Hsep)
      as (r & s1 & d_r & Hrun & Hinst1 & Hdr1 & Heq1 & Hsep1 & Hd1 & Hsub1 & HI1 & HE1).
    exists r, s1. split; [exact Hrun|].
    intros s2 Hdicts2 Hlists2 HI2 HE2 Hinst2.
    assert (Hl1 : lists s1 !! l = Some xs) by by eapply lookup_weaken.
    assert (Hvalid1 : valid_dict s1 d).
    { intros k v Hv. simpl.
      rewrite (resolve_subseteq (lists s) (lists s1) v Hsub1); by apply (Hvalid k). }
    assert (Hvalid2 : valid_dict s2 d) by by eapply valid_dict_write.
    assert (Hd2 : dicts s2 !! config = Some d) by by rewrite Hdicts2.
    assert (Hdr2 : dicts s2 !! Plugins.config r = Some d_r) by by rewrite Hdicts2.
    assert (Hl2 : lists s2 !! l = Some xs') by (rewrite Hlists2; apply lookup_insert_eq).
    destruct (Plugins_init_built s2 config d Hd2 Hvalid2)
      as (s3 & d3 & Hinit3 & Hdicts3 & Hsub3 & Hres3 & Hfresh3 & HI3 & HE3 & _ & _).
    set (r' := registry (fresh (dom (dicts s2))) (enabled_plugins s2 config)) in *.
    assert (Hc' : Plugins.config r' = fresh (dom (dicts s2))).
    { unfold r', registry. by rewrite foldl_Plugins_add_config. }
    exists r', (set_INSTANCE (Some r') s3), (catalog s3), (after_load (set_INSTANCE (Some r') s3)),
      (enabled_plugins s2 config), (after_load (set_INSTANCE (Some r') s3)).
    split_and!.
    + eapply instance_build; [exact Hd2| |exact Hinit3].
      right. exists r, d_r. split_and!; [by rewrite Hinst2|done|].
      eapply snapshot_stale; eauto.
    + rewrite Hc'. intros Heq.
      apply (is_fresh (dom (dicts s2))). rewrite Heq. by apply elem_of_dom.
    + done.
    + exact (Plugins_iter_installed_run (set_INSTANCE (Some r') s3)).
    + assert (Hd3 : dicts (set_INSTANCE (Some r') s3) !! Plugins.config r' = Some d3).
      { simpl. rewrite Hc', Hdicts3. apply lookup_insert_eq. }
      rewrite (Plugins_iter_enabled_run _ _ d3 Hd3).
      * f_equal. f_equal.
        apply (enabled_plugins_resolve s2 _ config _ d d3); [done..|].
        unfold catalog. simpl. by rewrite HI3, HE3.
      * intros v Hv. simpl.
        by apply (resolve_eq_valid (lists s2) (lists s3) d d3 Hres3 Hvalid2 CONFIG_KEY).
    + unfold enabled_plugins.
      assert (catalog s3 = catalog s2) as -> by (unfold catalog; by rewrite HI3, HE3).
      apply list_filter_iff. intros p.
      rewrite (enabled_in_plugins s2 config xs') by by eapply config_plugins_list.
      by rewrite bool_decide_eq_true.
Qed.

Lemma instance_caches_by_deep_equality_witness :
  (∃ inst s1,
     Plugins_instance 1%positive sample_two = (Ok inst, s1)
     ∧ Plugins_instance 2%positive s1 = (Ok inst, s1))
  ∧ (∃ r s1 d1,
       Plugins_init 1%positive sample_two = (Ok r, s1)
       ∧ Plugins_instance 1%positive sample_two = (Ok r, set_INSTANCE (Some r) s1)
       ∧ (Plugins.config r ∉ dom (dicts sample_two))
       ∧ dicts s1 !! Plugins.config r = Some d1
       ∧ resolve (lists s1) <$> d1
         = resolve (lists sample_two) <$> {[CONFIG_KEY := VList 1%positive]}
       ∧ (∀ k l', d1 !! k = Some (VList l') → l' ∉ dom (lists sample_two)))
  ∧ (∃ r s1,
       Plugins_instance 1%positive sample_two = (Ok r, s1)
       ∧ ∀ s2,
           dicts s2 = dicts s1 →
           lists s2 = <[1%positive := ["A"; "B"]]> (lists s1) →
           INSTALLED s2 = INSTALLED s1 →
           entry_points s2 = entry_points s1 →
           INSTANCE s2 = INSTANCE s1 →
           ∃ r' s3 installed s4 enabled s5,
             Plugins_instance 1%positive s2 = (Ok r', s3)
             ∧ Plugins.config r' ≠ Plugins.config r
             ∧ INSTANCE s3 = Some r'
             ∧ Plugins_iter_installed s3 = (Ok installed, s4)
             ∧ Plugins_iter_enabled r' s3 = (Ok enabled, s5)
             ∧ enabled = filter (λ p, BasePlugin.name p ∈ ["A"; "B"]) installed).
Proof.
  split_and!.
  - eexists _, _. split; [vm_compute; reflexivity|].
    refine (proj1 (instance_caches_by_deep_equality _ 2%positive
                     {[CONFIG_KEY := VList 2%positive]} _)
              _ {[CONFIG_KEY := VList 3%positive]} _ _ _);
      vm_compute; reflexivity.
  - apply (proj1 (proj2 (instance_caches_by_deep_equality sample_two 1%positive
                           {[CONFIG_KEY := VList 1%positive]} eq_refl))).
    + apply (bool_decide_unpack _). vm_compute. exact I.
    + left. reflexivity.
  - apply (proj2 (proj2 (instance_caches_by_deep_equality sample_two 1%positive
                           {[CONFIG_KEY := VList 1%positive]} eq_refl))
             ltac:(apply (bool_decide_unpack _); vm_compute; exact I)
             1%positive ["A"] ["A"; "B"]).
    + reflexivity.
    + reflexivity.
    + reflexivity.
    + intros [=].
Defined.

(** The cache at work on the sample store: the enabled plugins are
    asked for, B is enabled in place, and the enabled plugins asked for
    again include B. *)
Example cache_follows_enable :
  ∃ before s1 s2 after s3,
    iter_enabled 1%positive (sample ["A"]) = (Ok before, s1)
    ∧ enable 1%positive "B" s1 = (Ok tt, s2)
    ∧ iter_enabled 1%positive s2 = (Ok after, s3)
    ∧ BasePlugin.name <$> before = ["A"]
    ∧ BasePlugin.name <$> after = ["A"; "B"].
Proof.
  eexists _, _, _, _, _.
  split; [vm_compute; reflexivity|].
  split; [vm_compute; reflexivity|].
  split; [vm_compute; reflexivity|].
  split; reflexivity.
Qed.

(** * Further properties *)

(** ** Installed plugins *)

Lemma discovered_names eps :
  BasePlugin.name <$> discovered eps = ep_name <$> eps.
Proof. unfold discovered. rewrite <-list_fmap_compose. done. Qed.

Lemma catalog_names s name :
  name ∈ BasePlugin.name <$> catalog s
  ↔ name ∈ BasePlugin.name <$> INSTALLED s ∨ name ∈ ep_name <$> entry_points s.
Proof.
  destruct (catalog_split s)
    as (official & entry & -> & Hsub1 & Hsub2 & _ & Hoff & _ & Hfound).
  rewrite <-discovered_names, fmap_app, elem_of_app. split.
  - intros [Hin|Hin]; [left|right].
    + eapply elem_of_sublist; [exact Hin|]. by apply fmap_sublist.
    + eapply elem_of_sublist; [exact Hin|]. by apply fmap_sublist.
  - intros [(p & -> & Hp)%list_elem_of_fmap|(p & -> & Hp)%list_elem_of_fmap].
    + left. by apply Hoff.
    + apply elem_of_app. rewrite <-fmap_app. by apply Hfound.
Qed.


(** X2. Every iteration over the installed plugins loads every entry
    point again, also the entry points whose name an official plugin
    shadows: the call trace grows by the calls of all entry points
    each time, while the plugins yielded, the sources and the store
    stay the same. *)
Theorem iter_installed_reloads_entry_points s :
  ∃ ps s1 s2,
    iter_installed s = (Ok ps, s1)
    ∧ iter_installed s1 = (Ok ps, s2)
    ∧ calls s1 = calls s ++ load_calls (entry_points s)
    ∧ calls s2 = calls s ++ load_calls (entry_points s) ++ load_calls (entry_points s)
    ∧ (∀ e, e ∈ entry_points s → init_calls (ep_load e) ⊆ calls s1)
    ∧ dicts s2 = dicts s ∧ lists s2 = lists s
    ∧ INSTALLED s2 = INSTALLED s ∧ entry_points s2 = entry_points s
    ∧ INSTANCE s2 = INSTANCE s.
Proof.
  exists (catalog s), (after_load s), (after_load (after_load s)).
  split; [apply Plugins_iter_installed_run|].
  split; [exact (Plugins_iter_installed_run (after_load s))|].
  split; [done|]. split; [simpl; by rewrite <-app_assoc|].
  split; [|done].
  intros e He c Hc. simpl. apply elem_of_app. right.
  unfold load_calls. apply list_elem_of_bind. by exists e.
Qed.

(** X3. The entry point source yields one descriptor per entry point,
    in the order of the entry points, named after its entry point and
    of class EntrypointPlugin; names that occur twice are yielded
    twice at this level. *)
Theorem EntrypointPlugin_iter_installed_one_per_entry_point s :
  ∃ ps s',
    EntrypointPlugin_iter_installed s = (Ok ps, s')
    ∧ BasePlugin.name <$> ps = ep_name <$> entry_points s
    ∧ Forall (λ p, BasePlugin.cls p = EntrypointPlugin) ps.
Proof.
  eexists _, _. split; [apply EntrypointPlugin_iter_installed_run|].
  split; [apply discovered_names|].
  unfold discovered. apply Forall_fmap, Forall_true. done.
Qed.

(** ** Hooks, template roots and the snapshot of a registry *)

(** X4. The registry built from a valid configuration answers a hook
    name with the pairs of plugin name and services of the enabled
    plugins that hold the hook, in the order in which the enabled
    plugins are iterated (official plugins first), not sorted by
    name. *)
Theorem iter_hooks_in_iteration_order s config d hook_name :
  dicts s !! config = Some d →
  valid_dict s d →
  ∃ r s1 enabled s2,
    Plugins_init config s = (Ok r, s1)
    ∧ Plugins_iter_enabled r s1 = (Ok enabled, s2)
    ∧ ∀ s',
        Plugins_iter_hooks r hook_name s'
        = (Ok (omap (λ p, (BasePlugin.name p,.) <$> BasePlugin.hooks p !! hook_name)
                    enabled), s').
Proof.
  intros Hd Hvalid.
  destruct (Plugins_init_built s config d Hd Hvalid)
    as (s1 & d1 & Hinit & _ & _ & _ & _ & _ & _ & _ & Hen).
  eexists _, s1, _, _. split; [exact Hinit|]. split; [exact Hen|].
  intros s'. unfold Plugins_iter_hooks.
  by rewrite registry_hooks by apply enabled_plugins_NoDup.
Qed.

Lemma iter_hooks_in_iteration_order_witness :
  ∃ r s1 enabled s2,
    Plugins_init 1%positive sample_hooks = (Ok r, s1)
    ∧ Plugins_iter_enabled r s1 = (Ok enabled, s2)
    ∧ ∀ s',
        Plugins_iter_hooks r "init" s'
        = (Ok (omap (λ p, (BasePlugin.name p,.) <$> BasePlugin.hooks p !! "init")
                    enabled), s').
Proof.
  apply (iter_hooks_in_iteration_order
           sample_hooks 1%positive {[CONFIG_KEY := VList 1%positive]} "init").
  - reflexivity.
  - apply (bool_decide_unpack _). vm_compute. exact I.
Defined.

(** X5. The template roots of the registry built from a valid
    configuration are the pairs of plugin name and root of the enabled
    plugins, in the order in which they are iterated; a plugin whose
    templates attribute is None or the empty string has no entry. *)
Theorem iter_template_roots_skips_empty s config d :
  dicts s !! config = Some d →
  valid_dict s d →
  ∃ r s1 enabled s2,
    Plugins_init config s = (Ok r, s1)
    ∧ Plugins_iter_enabled r s1 = (Ok enabled, s2)
    ∧ ∀ s',
        Plugins_iter_template_roots r s'
        = (Ok (omap (λ p, match BasePlugin.templates_root p with
                          | Some root => if decide (root = "") then None
                                         else Some (BasePlugin.name p, root)
                          | None => None
                          end) enabled), s').
Proof.
  intros Hd Hvalid.
  destruct (Plugins_init_built s config d Hd Hvalid)
    as (s1 & d1 & Hinit & _ & _ & _ & _ & _ & _ & _ & Hen).
  eexists _, s1, _, _. split; [exact Hinit|]. split; [exact Hen|].
  intros s'. unfold Plugins_iter_template_roots.
  by rewrite registry_template_roots by apply enabled_plugins_NoDup.
Qed.

Lemma iter_template_roots_skips_empty_witness :
  ∃ r s1 enabled s2,
    Plugins_init 1%positive sample_hooks = (Ok r, s1)
    ∧ Plugins_iter_enabled r s1 = (Ok enabled, s2)
    ∧ ∀ s',
        Plugins_iter_template_roots r s'
        = (Ok (omap (λ p, match BasePlugin.templates_root p with
                          | Some root => if decide (root = "") then None
                                         else Some (BasePlugin.name p, root)
                          | None => None
                          end) enabled), s').
Proof.
  apply (iter_template_roots_skips_empty
           sample_hooks 1%positive {[CONFIG_KEY := VList 1%positive]}).
  - reflexivity.
  - apply (bool_decide_unpack _). vm_compute. exact I.
Defined.

(** The official plugin Z comes before the entry point C in the hooks,
    although C sorts before Z, and the empty template root of C is left
    out. *)
Example iter_hooks_scenario :
  (iter_hooks 1%positive "init" sample_hooks).1
  = Ok [("Z", ["mysql"]); ("C", ["lms"; "cms"])]
  ∧ (iter_template_roots 1%positive sample_hooks).1 = Ok [("Z", "/z/templates")].
Proof. by vm_compute. Qed.

(** X6. Building a registry from a valid configuration changes no
    object that exists: the dictionaries and lists of the store are
    all still there with their contents, one dictionary is new (the
    snapshot), the cache and the sources are untouched, and every
    entry point is loaded exactly once. *)
Theorem Plugins_init_only_adds s config d :
  dicts s !! config = Some d →
  valid_dict s d →
  ∃ r s1,
    Plugins_init config s = (Ok r, s1)
    ∧ dicts s ⊆ dicts s1
    ∧ dom (dicts s1) = {[Plugins.config r]} ∪ dom (dicts s)
    ∧ (Plugins.config r ∉ dom (dicts s))
    ∧ lists s ⊆ lists s1
    ∧ INSTANCE s1 = INSTANCE s
    ∧ INSTALLED s1 = INSTALLED s
    ∧ entry_points s1 = entry_points s
    ∧ calls s1 = calls s ++ load_calls (entry_points s).
Proof.
  intros Hd Hvalid.
  destruct (Plugins_init_run s config d Hd Hvalid) as (d1 & L1 & Hrun & Hsub & _ & _).
  eexists _, _. split; [exact Hrun|].
  unfold registry. rewrite foldl_Plugins_add_config. simpl.
  assert (Hfresh : dicts s !! fresh (dom (dicts s)) = None).
  { apply not_elem_of_dom, is_fresh. }
  split_and!; [by apply insert_subseteq|by rewrite dom_insert_L|apply is_fresh|done..].
Qed.

Lemma Plugins_init_only_adds_witness :
  ∃ r s1,
    Plugins_init 1%positive (sample ["B"; "A"]) = (Ok r, s1)
    ∧ dicts (sample ["B"; "A"]) ⊆ dicts s1
    ∧ dom (dicts s1) = {[Plugins.config r]} ∪ dom (dicts (sample ["B"; "A"]))
    ∧ (Plugins.config r ∉ dom (dicts (sample ["B"; "A"])))
    ∧ lists (sample ["B"; "A"]) ⊆ lists s1
    ∧ INSTANCE s1 = INSTANCE (sample ["B"; "A"])
    ∧ INSTALLED s1 = INSTALLED (sample ["B"; "A"])
    ∧ entry_points s1 = entry_points (sample ["B"; "A"])
    ∧ calls s1 = calls (sample ["B"; "A"]) ++ load_calls (entry_points (sample ["B"; "A"])).
Proof.
  apply (Plugins_init_only_adds
           (sample ["B"; "A"]) 1%positive {[CONFIG_KEY := VList 1%positive]}).
  - reflexivity.
  - apply (bool_decide_unpack _). vm_compute. exact I.
Defined.

Lemma resolve_fmap_frame (L L' : gmap loc (list string)) (X : gset loc)
    (d : gmap string value) :
  (∀ l, l ∉ X → L' !! l = L !! l) →
  (∀ k l, d !! k = Some (VList l) → l ∉ X) →
  resolve L' <$> d = resolve L <$> d.
Proof.
  intros Hsame Hfresh. apply map_eq. intros k. rewrite !lookup_fmap.
  destruct (d !! k) as [[x|l]|] eqn:Hk; [done| |done].
  simpl. by rewrite (Hsame l) by by eapply Hfresh.
Qed.

(** X7. The registry keeps a snapshot of its own: whatever happens
    afterwards to the objects that existed when it was built (the
    configuration, its PLUGINS list, any other dictionary or list),
    the registry yields the same enabled plugins as long as the
    installed plugins are the same. *)
Theorem registry_snapshot_immune s config d :
  dicts s !! config = Some d →
  valid_dict s d →
  ∃ r s1 enabled s2,
    Plugins_init config s = (Ok r, s1)
    ∧ Plugins_iter_enabled r s1 = (Ok enabled, s2)
    ∧ ∀ s3,
        (∀ c, c ∉ dom (dicts s) → dicts s3 !! c = dicts s1 !! c) →
        (∀ l, l ∉ dom (lists s) → lists s3 !! l = lists s1 !! l) →
        INSTALLED s3 = INSTALLED s1 →
        entry_points s3 = entry_points s1 →
        ∃ s4, Plugins_iter_enabled r s3 = (Ok enabled, s4).
Proof.
  intros Hd Hvalid.
  destruct (Plugins_init_built s config d Hd Hvalid)
    as (s1 & d1 & Hinit & Hdicts & Hsub & Hres & Hfresh & HI & HE & _ & Hen).
  eexists _, s1, _, _. split; [exact Hinit|]. split; [exact Hen|].
  intros s3 Hd3 Hl3 HI3 HE3.
  set (c1 := fresh (dom (dicts s))) in *.
  assert (Hc : Plugins.config (registry c1 (enabled_plugins s config)) = c1).
  { unfold registry. by rewrite foldl_Plugins_add_config. }
  assert (Hd1 : dicts s1 !! c1 = Some d1) by (rewrite Hdicts; apply lookup_insert_eq).
  assert (Hd1' : dicts s3 !! c1 = Some d1) by (rewrite Hd3; [done|apply is_fresh]).
  assert (Hres3 : resolve (lists s3) <$> d1 = resolve (lists s1) <$> d1).
  { by apply (resolve_fmap_frame _ _ (dom (lists s))). }
  assert (Hvalid1 : map_Forall (λ _ v, is_Some (resolve (lists s1) v)) d1).
  { by apply (resolve_eq_valid (lists s) (lists s1) d d1). }
  exists (after_load s3).
  rewrite (Plugins_iter_enabled_run s3 _ d1); [| by rewrite Hc |].
  - f_equal. f_equal. rewrite Hc.
    rewrite (enabled_plugins_resolve s1 s3 c1 c1 d1 d1); [|done..|].
    + apply (enabled_plugins_resolve s s1 config c1 d d1); [done..|].
      unfold catalog. by rewrite HI, HE.
    + unfold catalog. by rewrite HI3, HE3.
  - intros v Hv.
    apply (resolve_eq_valid (lists s1) (lists s3) d1 d1 Hres3 Hvalid1 CONFIG_KEY v Hv).
Qed.

Lemma registry_snapshot_immune_witness :
  ∃ r s1 enabled s2,
    Plugins_init 1%positive (sample ["B"; "A"]) = (Ok r, s1)
    ∧ Plugins_iter_enabled r s1 = (Ok enabled, s2)
    ∧ ∀ s3,
        (∀ c, c ∉ dom (dicts (sample ["B"; "A"])) → dicts s3 !! c = dicts s1 !! c) →
        (∀ l, l ∉ dom (lists (sample ["B"; "A"])) → lists s3 !! l = lists s1 !! l) →
        INSTALLED s3 = INSTALLED s1 →
        entry_points s3 = entry_points s1 →
        ∃ s4, Plugins_iter_enabled r s3 = (Ok enabled, s4).
Proof.
  apply (registry_snapshot_immune
           (sample ["B"; "A"]) 1%positive {[CONFIG_KEY := VList 1%positive]}).
  - reflexivity.
  - apply (bool_decide_unpack _). vm_compute. exact I.
Defined.

Lemma enabled_plugins_none s config :
  config_plugins s config = Some [] → enabled_plugins s config = [].
Proof.
  intros Hcfg. unfold enabled_plugins.
  induction (catalog s) as [|p ps IH]; [done|].
  rewrite filter_cons_False; [done|].
  rewrite (enabled_in_plugins s config []) by done.
  rewrite bool_decide_eq_false_2; [done|apply not_elem_of_nil].
Qed.

(** X8. A valid configuration without the PLUGINS key, or with an
    empty PLUGINS list, enables nothing: the registry built from it has
    empty patch and hook indices and no template roots, whatever is
    installed, and it yields no enabled plugin. *)
Theorem no_plugins_entry_enables_nothing s config d :
  dicts s !! config = Some d →
  valid_dict s d →
  config_plugins s config = Some [] →
  ∃ s1 s2,
    Plugins_init config s
    = (Ok (Plugins.Make (fresh (dom (dicts s))) ∅ ∅ Dict.empty), s1)
    ∧ Plugins_iter_enabled (Plugins.Make (fresh (dom (dicts s))) ∅ ∅ Dict.empty) s1
      = (Ok [], s2).
Proof.
  intros Hd Hvalid Hcfg.
  destruct (Plugins_init_built s config d Hd Hvalid)
    as (s1 & d1 & Hinit & _ & _ & _ & _ & _ & _ & _ & Hen).
  rewrite (enabled_plugins_none s config Hcfg) in Hinit, Hen.
  by eexists _, _.
Qed.

Lemma no_plugins_entry_enables_nothing_witness :
  ∃ s1 s2,
    Plugins_init 1%positive sample_empty
    = (Ok (Plugins.Make (fresh (dom (dicts sample_empty))) ∅ ∅ Dict.empty), s1)
    ∧ Plugins_iter_enabled (Plugins.Make (fresh (dom (dicts sample_empty))) ∅ ∅ Dict.empty) s1
      = (Ok [], s2).
Proof.
  apply (no_plugins_entry_enables_nothing sample_empty 1%positive ∅).
  - reflexivity.
  - apply (bool_decide_unpack _). vm_compute. exact I.
  - reflexivity.
Defined.

(** ** Clearing and reusing the cache *)

Lemma discovered_cls eps :
  Forall (λ p, BasePlugin.cls p = EntrypointPlugin) (discovered eps).
Proof. unfold discovered. apply Forall_fmap, Forall_true. done. Qed.

(** X9. [Plugins.clear] empties the cache and the list of official
    plugins and touches nothing else; afterwards the installed plugins
    are the entry points alone: a name is installed exactly when an
    entry point has it. *)
Theorem clear_forgets_official_plugins s name :
  ∃ s1 b s2,
    Plugins_clear s = (Ok tt, s1)
    ∧ INSTANCE s1 = None ∧ INSTALLED s1 = []
    ∧ dicts s1 = dicts s ∧ lists s1 = lists s
    ∧ entry_points s1 = entry_points s ∧ calls s1 = calls s
    ∧ is_installed name s1 = (Ok b, s2)
    ∧ (b = true ↔ name ∈ ep_name <$> entry_points s).
Proof.
  eexists _, _, _. split; [reflexivity|]. simpl.
  split_and!; [done..|apply is_installed_run|].
  rewrite bool_decide_eq_true. unfold catalog. simpl.
  destruct (foldl_yield_unseen (discovered (entry_points s)) ∅ [])
    as (new & -> & Hsub & _ & _ & Hall). simpl.
  rewrite <-discovered_names. split.
  - intros Hin. eapply elem_of_sublist; [exact Hin|]. by apply fmap_sublist.
  - intros (p & -> & Hp)%list_elem_of_fmap. apply Hall; [done|set_solver].
Qed.

(** X10. After [Plugins.clear] the next [Plugins.instance] on a valid
    configuration builds a registry, whatever had been cached: its
    snapshot is a dictionary that did not exist, it is stored in the
    cache, and its enabled plugins all come from entry points. *)
Theorem instance_after_clear_builds s config d :
  dicts s !! config = Some d →
  valid_dict s d →
  ∃ s0 r s1 enabled s2,
    Plugins_clear s = (Ok tt, s0)
    ∧ Plugins_instance config s0 = (Ok r, s1)
    ∧ (Plugins.config r ∉ dom (dicts s))
    ∧ INSTANCE s1 = Some r
    ∧ Plugins_iter_enabled r s1 = (Ok enabled, s2)
    ∧ Forall (λ p, BasePlugin.cls p = EntrypointPlugin) enabled.
Proof.
  intros Hd Hvalid.
  set (s0 := set_INSTALLED [] (set_INSTANCE None s)).
  assert (Hd0 : dicts s0 !! config = Some d) by done.
  assert (Hvalid0 : valid_dict s0 d) by done.
  destruct (Plugins_init_built s0 config d Hd0 Hvalid0)
    as (s1 & d1 & Hinit & Hdicts & _ & Hres & _ & HI & HE & _ & Hen).
  set (r := registry (fresh (dom (dicts s0))) (enabled_plugins s0 config)) in *.
  assert (Hc : Plugins.config r = fresh (dom (dicts s))).
  { unfold r, registry. by rewrite foldl_Plugins_add_config. }
  exists s0, r, (set_INSTANCE (Some r) s1), (enabled_plugins s0 config),
    (after_load (set_INSTANCE (Some r) s1)).
  split; [reflexivity|].
  split; [eapply instance_build; [exact Hd0|by left|exact Hinit]|].
  split; [rewrite Hc; apply is_fresh|]. split; [done|]. split.
  - assert (Hd1 : dicts (set_INSTANCE (Some r) s1) !! Plugins.config r = Some d1).
    { simpl. rewrite Hc, Hdicts. apply lookup_insert_eq. }
    rewrite (Plugins_iter_enabled_run _ _ d1 Hd1).
    + f_equal. f_equal.
      apply (enabled_plugins_resolve s0 _ config _ d d1); [done..|].
      unfold catalog. simpl. by rewrite HI, HE.
    + intros v Hv. simpl.
      by apply (resolve_eq_valid (lists s0) (lists s1) d d1 Hres Hvalid0 CONFIG_KEY).
  - apply Forall_forall. intros p [_ Hp]%list_elem_of_filter.
    unfold catalog in Hp. simpl in Hp.
    destruct (foldl_yield_unseen (discovered (entry_points s)) ∅ [])
      as (new & Hnew & Hsub & _). rewrite Hnew in Hp. simpl in Hp.
    assert (Hall := discovered_cls (entry_points s)).
    rewrite Forall_forall in Hall. apply Hall. by eapply elem_of_sublist.
Qed.

Lemma instance_after_clear_builds_witness :
  ∃ s0 r s1 enabled s2,
    Plugins_clear (sample ["A"; "B"]) = (Ok tt, s0)
    ∧ Plugins_instance 1%positive s0 = (Ok r, s1)
    ∧ (Plugins.config r ∉ dom (dicts (sample ["A"; "B"])))
    ∧ INSTANCE s1 = Some r
    ∧ Plugins_iter_enabled r s1 = (Ok enabled, s2)
    ∧ Forall (λ p, BasePlugin.cls p = EntrypointPlugin) enabled.
Proof.
  apply (instance_after_clear_builds
           (sample ["A"; "B"]) 1%positive {[CONFIG_KEY := VList 1%positive]}).
  - reflexivity.
  - apply (bool_decide_unpack _). vm_compute. exact I.
Defined.

Lemma registry_config c ps : Plugins.config (registry c ps) = c.
Proof. unfold registry. by rewrite foldl_Plugins_add_config. Qed.

(** After [Plugins.instance(config)] on a valid configuration the cache
    holds the registry returned and its snapshot equals the
    configuration. *)
Lemma instance_settles s config d :
  dicts s !! config = Some d →
  valid_dict s d →
  cache_live s = true →
  ∃ r s1 d_r,
    Plugins_instance config s = (Ok r, s1)
    ∧ INSTANCE s1 = Some r
    ∧ dicts s1 !! Plugins.config r = Some d_r
    ∧ resolve (lists s1) <$> d_r = resolve (lists s1) <$> d
    ∧ dicts s1 !! config = Some d
    ∧ lists s ⊆ lists s1
    ∧ INSTALLED s1 = INSTALLED s
    ∧ entry_points s1 = entry_points s
    ∧ ((INSTANCE s = None ∨ ∃ inst, INSTANCE s = Some inst ∧ inst ≠ r) →
       r = registry (fresh (dom (dicts s))) (enabled_plugins s config)).
Proof.
  intros Hd Hvalid Hlive.
  assert (Hbuild :
    (INSTANCE s = None
     ∨ ∃ inst d_inst, INSTANCE s = Some inst
         ∧ dicts s !! Plugins.config inst = Some d_inst
         ∧ resolve (lists s) <$> d_inst ≠ resolve (lists s) <$> d) →
    ∃ r s1 d_r,
      Plugins_instance config s = (Ok r, s1)
      ∧ INSTANCE s1 = Some r
      ∧ dicts s1 !! Plugins.config r = Some d_r
      ∧ resolve (lists s1) <$> d_r = resolve (lists s1) <$> d
      ∧ dicts s1 !! config = Some d
      ∧ lists s ⊆ lists s1
      ∧ INSTALLED s1 = INSTALLED s
      ∧ entry_points s1 = entry_points s
      ∧ ((INSTANCE s = None ∨ ∃ inst, INSTANCE s = Some inst ∧ inst ≠ r) →
         r = registry (fresh (dom (dicts s))) (enabled_plugins s config))).
  { intros Hstale.
    destruct (Plugins_init_built s config d Hd Hvalid)
      as (s1 & d1 & Hinit & Hdicts & Hsub & Hres & Hfresh & HI & HE & _ & _).
    eexists _, (set_INSTANCE _ s1), d1.
    split; [by eapply instance_build|]. simpl.
    rewrite registry_config.
    split_and!; [done| | | |done..].
    - rewrite Hdicts. apply lookup_insert_eq.
    - rewrite Hres. symmetry. by apply resolve_fmap_subseteq.
    - rewrite Hdicts, lookup_insert_ne; [done|].
      intros Heq. apply (is_fresh (dom (dicts s))). rewrite Heq.
      by apply elem_of_dom. }
  unfold cache_live in Hlive.
  destruct (INSTANCE s) as [inst|] eqn:Hinst; [|apply Hbuild; by left].
  apply bool_decide_eq_true in Hlive as [d_inst Hdi].
  destruct (decide (resolve (lists s) <$> d_inst = resolve (lists s) <$> d)) as [Heq|Hne].
  - exists inst, s, d_inst. split; [by eapply instance_cached|].
    split_and!; [done..|].
    intros [?|(inst' & [= <-] & ?)]; done.
  - apply Hbuild. right. by exists inst, d_inst.
Qed.

(** X11. The queries of the module reuse the cached registry: after a
    first query on a valid configuration, asking again for patches,
    hooks or template roots with the configuration unchanged gives an
    answer without building a registry or loading a plugin, and leaves
    the state as it is; for patches the answer is the one of the first
    query. *)
Theorem queries_reuse_the_cache s config d name :
  dicts s !! config = Some d →
  valid_dict s d →
  cache_live s = true →
  ∃ out s1 hooks roots,
    iter_patches config name s = (Ok out, s1)
    ∧ iter_patches config name s1 = (Ok out, s1)
    ∧ iter_hooks config name s1 = (Ok hooks, s1)
    ∧ iter_template_roots config s1 = (Ok roots, s1).
Proof.
  intros Hd Hvalid Hlive.
  destruct (instance_settles s config d Hd Hvalid Hlive)
    as (r & s1 & d_r & Hrun & Hinst & Hdr & Heq & Hd1 & _).
  destruct (Plugins_iter_patches_total r name s1) as [out Hout].
  assert (Hhit : Plugins_instance config s1 = (Ok r, s1)) by by eapply instance_cached.
  exists out, s1. eexists _, _.
  unfold iter_patches, iter_hooks, iter_template_roots.
  split; [by erewrite bind_Ok by exact Hrun|].
  split; [by erewrite bind_Ok by exact Hhit|].
  split; by erewrite bind_Ok by exact Hhit.
Qed.

Lemma queries_reuse_the_cache_witness :
  ∃ out s1 hooks roots,
    iter_patches 1%positive "p1" (sample ["A"; "B"]) = (Ok out, s1)
    ∧ iter_patches 1%positive "p1" s1 = (Ok out, s1)
    ∧ iter_hooks 1%positive "p1" s1 = (Ok hooks, s1)
    ∧ iter_template_roots 1%positive s1 = (Ok roots, s1).
Proof.
  apply (queries_reuse_the_cache
           (sample ["A"; "B"]) 1%positive {[CONFIG_KEY := VList 1%positive]} "p1").
  - reflexivity.
  - apply (bool_decide_unpack _). vm_compute. exact I.
  - reflexivity.
Defined.

Lemma valid_dict_subseteq s s1 (d : gmap string value) :
  valid_dict s d → lists s ⊆ lists s1 → valid_dict s1 d.
Proof.
  intros Hvalid Hsub k v Hv. simpl.
  rewrite (resolve_subseteq (lists s) (lists s1) v Hsub); by apply (Hvalid k).
Qed.

Lemma catalog_registered s p :
  BasePlugin.name p ∉ BasePlugin.name <$> catalog s →
  p ∈ catalog (set_INSTALLED (INSTALLED s ++ [p]) s).
Proof.
  intros Hnew.
  destruct (catalog_split (set_INSTALLED (INSTALLED s ++ [p]) s))
    as (official & entry & -> & Hsub & _ & _ & Hoff & _). simpl in *.
  apply elem_of_app. left.
  destruct (proj1 (list_elem_of_fmap _ _ _) (Hoff p ltac:(set_solver)))
    as (q & Hq & Hin).
  assert (Hq' : q ∈ INSTALLED s ++ [p]) by by eapply elem_of_sublist.
  apply elem_of_app in Hq' as [Hq'|Hq'%list_elem_of_singleton]; [|by subst].
  destruct Hnew. rewrite Hq. apply catalog_names. left.
  apply list_elem_of_fmap. by exists q.
Qed.

(** X12. The cache is keyed by the configuration alone.  When a plugin
    that the configuration enables is registered as an official plugin
    after the registry was built, and the configuration is unchanged,
    the patches are still answered from the cached registry, which
    knows nothing of the plugin, while the enabled plugins, which are
    filtered afresh each time, include it. *)
Theorem cache_ignores_later_registration s config d l xs p name :
  dicts s !! config = Some d →
  valid_dict s d →
  INSTANCE s = None →
  d !! CONFIG_KEY = Some (VList l) →
  lists s !! l = Some xs →
  BasePlugin.name p ∈ xs →
  (is_installed (BasePlugin.name p) s).1 = Ok false →
  ∃ out s1,
    iter_patches config name s = (Ok out, s1)
    ∧ (BasePlugin.name p ∉ out.*1)
    ∧ iter_patches config name (set_INSTALLED (INSTALLED s1 ++ [p]) s1)
      = (Ok out, set_INSTALLED (INSTALLED s1 ++ [p]) s1)
    ∧ ∃ enabled s3,
        iter_enabled config (set_INSTALLED (INSTALLED s1 ++ [p]) s1) = (Ok enabled, s3)
        ∧ p ∈ enabled.
Proof.
  intros Hd Hvalid Hnone Hk Hl Hp Hno%is_installed_false.
  assert (Hlive : cache_live s = true) by (unfold cache_live; by rewrite Hnone).
  destruct (instance_settles s config d Hd Hvalid Hlive)
    as (r & s1 & d_r & Hrun & Hinst & Hdr & Heq & Hd1 & Hsub & HI & HE & Hr).
  specialize (Hr (or_introl Hnone)).
  set (s2 := set_INSTALLED (INSTALLED s1 ++ [p]) s1).
  destruct (registry_iter_patches (fresh (dom (dicts s))) (enabled_plugins s config)
              name s1 (enabled_plugins_NoDup s config))
    as (out & Hout & Hsorted & Hnd & Hmem).
  destruct (registry_iter_patches (fresh (dom (dicts s))) (enabled_plugins s config)
              name s2 (enabled_plugins_NoDup s config))
    as (out2 & Hout2 & Hsorted2 & Hnd2 & Hmem2).
  assert (out2 = out) as ->.
  { apply sorted_pairs_unique; [done..|]. intros [n c]. by rewrite Hmem, Hmem2. }
  rewrite <-Hr in Hout, Hout2.
  assert (Hhit : Plugins_instance config s2 = (Ok r, s2)).
  { by eapply (instance_cached s2 config r d_r d). }
  assert (Hvalid1 : valid_dict s1 d) by by eapply valid_dict_subseteq.
  exists out, s1. split_and!.
  - unfold iter_patches. by erewrite bind_Ok by exact Hrun.
  - intros ([n c] & Hn & Hin)%list_elem_of_fmap. simpl in Hn. subst n.
    apply Hmem in Hin as (q & Hq & Hqn & _).
    apply Hno. rewrite <-Hqn. apply list_elem_of_fmap. exists q. split; [done|].
    by apply list_elem_of_filter in Hq as [_ Hq].
  - unfold iter_patches. by erewrite bind_Ok by exact Hhit.
  - exists (enabled_plugins s2 (Plugins.config r)), (after_load s2). split.
    + unfold iter_enabled. erewrite bind_Ok by exact Hhit.
      apply (Plugins_iter_enabled_run s2 r d_r); [done|].
      intros v Hv. simpl.
      by apply (resolve_eq_valid (lists s1) (lists s1) d d_r Heq Hvalid1 CONFIG_KEY).
    + apply list_elem_of_filter. split.
      * rewrite (enabled_in_resolve s1 s2 config (Plugins.config r) d d_r); [|done..].
        rewrite (enabled_in_plugins s1 config xs).
        -- by apply bool_decide_eq_true.
        -- eapply config_plugins_list; [done..|]. by eapply lookup_weaken.
      * apply (catalog_registered s1 p).
        assert (catalog s1 = catalog s) as -> by (unfold catalog; by rewrite HI, HE).
        done.
Qed.

Lemma cache_ignores_later_registration_witness :
  ∃ out s1,
    iter_patches 1%positive "p1" (sample ["A"; "Z"]) = (Ok out, s1)
    ∧ (BasePlugin.name plugin_Z ∉ out.*1)
    ∧ iter_patches 1%positive "p1" (set_INSTALLED (INSTALLED s1 ++ [plugin_Z]) s1)
      = (Ok out, set_INSTALLED (INSTALLED s1 ++ [plugin_Z]) s1)
    ∧ ∃ enabled s3,
        iter_enabled 1%positive (set_INSTALLED (INSTALLED s1 ++ [plugin_Z]) s1) = (Ok enabled, s3)
        ∧ plugin_Z ∈ enabled.
Proof.
  apply (cache_ignores_later_registration
           (sample ["A"; "Z"]) 1%positive {[CONFIG_KEY := VList 1%positive]}
           1%positive ["A"; "Z"] plugin_Z "p1").
  - reflexivity.
  - apply (bool_decide_unpack _). vm_compute. exact I.
  - reflexivity.
  - reflexivity.
  - reflexivity.
  - apply (bool_decide_unpack _). vm_compute. exact I.
  - vm_compute. reflexivity.
Defined.

(** ** How [enable] and [disable] compose *)

Lemma sorted_StronglySorted xs : StronglySorted String.le (sorted xs).
Proof. apply (StronglySorted_merge_sort String.le). Qed.

Lemma StronglySorted_filter_le (P : string → Prop) `{!∀ x, Decision (P x)} xs :
  StronglySorted String.le xs → StronglySorted String.le (filter P xs).
Proof.
  induction 1 as [|x xs Hxs IH Hx]; [constructor|].
  rewrite filter_cons. case_decide; [|done].
  constructor; [done|]. rewrite Forall_forall in *.
  intros y [_ Hy]%list_elem_of_filter. by apply Hx.
Qed.

Lemma sorted_unique (xs ys : list string) :
  StronglySorted String.le xs → StronglySorted String.le ys → xs ≡ₚ ys → xs = ys.
Proof. apply (StronglySorted_unique String.le). Qed.

Lemma sorted_id xs : Sorted String.le xs → sorted xs = xs.
Proof.
  intros Hs. apply sorted_unique; [apply sorted_StronglySorted| |apply sorted_Permutation].
  apply Sorted_StronglySorted; [apply _|done].
Qed.

Lemma sorted_proper xs ys : xs ≡ₚ ys → sorted xs = sorted ys.
Proof.
  intros Hp. apply sorted_unique; [apply sorted_StronglySorted..|].
  by rewrite !sorted_Permutation.
Qed.

Lemma filter_sorted_append (P : string) xs :
  P ∉ xs → filter (λ y, y ≠ P) (sorted (xs ++ [P])) = sorted xs.
Proof.
  intros Hno. apply sorted_unique.
  - apply StronglySorted_filter_le, sorted_StronglySorted.
  - apply sorted_StronglySorted.
  - rewrite !sorted_Permutation, filter_app, filter_ne_id by done.
    rewrite filter_cons_False by naive_solver. by rewrite filter_nil, app_nil_r.
Qed.

Lemma after_load_set_lists f s :
  after_load (set_lists f s) = set_lists f (after_load s).
Proof. by destruct s. Qed.

Lemma set_lists_insert_same l xs s :
  lists s !! l = Some xs → set_lists <[l := xs]> s = s.
Proof. apply set_lists_insert_id. Qed.

(** X13. Enabling an installed name that the PLUGINS list does not
    hold and disabling it again leaves the list sorted with its old
    names; when the list was sorted, every dictionary and every list of
    the store is exactly what it was. *)
Theorem enable_then_disable_restores s config d l xs P :
  (is_installed P s).1 = Ok true →
  dicts s !! config = Some d →
  d !! CONFIG_KEY = Some (VList l) →
  lists s !! l = Some xs →
  P ∉ xs →
  ∃ s1 s2,
    enable config P s = (Ok tt, s1)
    ∧ disable config P s1 = (Ok tt, s2)
    ∧ lists s2 !! l = Some (sorted xs)
    ∧ dicts s2 = dicts s
    ∧ (Sorted String.le xs → lists s2 = lists s).
Proof.
  intros Hinst%is_installed_true Hd Hk Hl Hno.
  eexists _, _. split; [by eapply enable_append|].
  split; [eapply disable_run; [done..|simpl; apply lookup_insert_eq]|].
  rewrite filter_sorted_append by done. simpl.
  split; [apply lookup_insert_eq|]. split; [done|].
  intros Hs. rewrite sorted_id by done.
  by rewrite insert_insert_eq, insert_id.
Qed.

Lemma enable_then_disable_restores_witness :
  ∃ s1 s2,
    enable 1%positive "A" (sample ["B"]) = (Ok tt, s1)
    ∧ disable 1%positive "A" s1 = (Ok tt, s2)
    ∧ lists s2 !! 1%positive = Some (sorted ["B"])
    ∧ dicts s2 = dicts (sample ["B"])
    ∧ (Sorted String.le ["B"] → lists s2 = lists (sample ["B"])).
Proof.
  apply (enable_then_disable_restores
           (sample ["B"]) 1%positive {[CONFIG_KEY := VList 1%positive]} 1%positive ["B"] "A").
  - vm_compute. reflexivity.
  - reflexivity.
  - reflexivity.
  - reflexivity.
  - apply (bool_decide_unpack _). vm_compute. exact I.
Defined.

(** X14. [disable] does not undo the creation of the key: enabling an
    installed name on a configuration without the PLUGINS key and
    disabling it again leaves the configuration with an empty list
    under PLUGINS, and its other keys as they were. *)
Theorem enable_then_disable_leaves_empty_list s config d P :
  (is_installed P s).1 = Ok true →
  dicts s !! config = Some d →
  d !! CONFIG_KEY = None →
  ∃ s1 s2 l,
    enable config P s = (Ok tt, s1)
    ∧ disable config P s1 = (Ok tt, s2)
    ∧ dicts s2 !! config = Some (<[CONFIG_KEY := VList l]> d)
    ∧ lists s2 !! l = Some []
    ∧ (l ∉ dom (lists s)).
Proof.
  intros Hinst%is_installed_true Hd Hk.
  eexists _, _, (fresh (dom (lists s))). split; [by eapply enable_create|].
  split.
  { eapply disable_run; simpl; apply lookup_insert_eq. }
  simpl. split; [apply lookup_insert_eq|].
  split; [|apply is_fresh].
  rewrite lookup_insert_eq. f_equal.
  change (sorted [P]) with (sorted ([] ++ [P])).
  rewrite filter_sorted_append by apply not_elem_of_nil. done.
Qed.

Lemma enable_then_disable_leaves_empty_list_witness :
  ∃ s1 s2 l,
    enable 1%positive "A" sample_empty = (Ok tt, s1)
    ∧ disable 1%positive "A" s1 = (Ok tt, s2)
    ∧ dicts s2 !! 1%positive = Some (<[CONFIG_KEY := VList l]> ∅)
    ∧ lists s2 !! l = Some []
    ∧ (l ∉ dom (lists sample_empty)).
Proof.
  apply (enable_then_disable_leaves_empty_list sample_empty 1%positive ∅ "A").
  - vm_compute. reflexivity.
  - reflexivity.
  - reflexivity.
Defined.

(** The PLUGINS list after [enable]: as it was when it holds the name,
    else sorted with the name added. *)
Lemma enable_list_run s config d l xs P :
  P ∈ BasePlugin.name <$> catalog s →
  dicts s !! config = Some d →
  d !! CONFIG_KEY = Some (VList l) →
  lists s !! l = Some xs →
  enable config P s
  = (Ok tt, set_lists <[l := if decide (P ∈ xs) then xs else sorted (xs ++ [P])]>
              (after_load s)).
Proof.
  intros Hinst Hd Hk Hl. case_decide as Hin.
  - rewrite set_lists_insert_id by done.
    eapply enable_already; [done| |done]. by eapply config_plugins_list.
  - by eapply enable_append.
Qed.

Lemma added_comm (P Q : string) (xs : list string) :
  (let ys := if decide (P ∈ xs) then xs else sorted (xs ++ [P]) in
   if decide (Q ∈ ys) then ys else sorted (ys ++ [Q]))
  = (let ys := if decide (Q ∈ xs) then xs else sorted (xs ++ [Q]) in
     if decide (P ∈ ys) then ys else sorted (ys ++ [P])).
Proof.
  simpl. destruct (decide (P ∈ xs)) as [HP|HP], (decide (Q ∈ xs)) as [HQ|HQ]; simpl.
  - by rewrite decide_True.
  - rewrite decide_True; [done|]. apply elem_of_sorted. set_solver.
  - rewrite decide_True by (apply elem_of_sorted; set_solver).
    by rewrite decide_False.
  - destruct (decide (P = Q)) as [->|Hne]; [done|].
    rewrite !decide_False.
    + apply sorted_proper. rewrite !sorted_Permutation.
      rewrite <-!app_assoc. apply Permutation_app_head, Permutation_swap.
    + rewrite elem_of_sorted. set_solver.
    + rewrite elem_of_sorted. set_solver.
Qed.

(** X15. The order in which two installed names are enabled does not
    matter: on a configuration whose PLUGINS entry is a list, enabling
    P and then Q succeeds and ends in exactly the state that enabling
    Q and then P ends in. *)
Theorem enable_order_irrelevant s config d l xs P Q :
  (is_installed P s).1 = Ok true →
  (is_installed Q s).1 = Ok true →
  dicts s !! config = Some d →
  d !! CONFIG_KEY = Some (VList l) →
  lists s !! l = Some xs →
  ∃ s',
    (enable config P ;;; enable config Q) s = (Ok tt, s')
    ∧ (enable config Q ;;; enable config P) s = (Ok tt, s').
Proof.
  intros HP%is_installed_true HQ%is_installed_true Hd Hk Hl.
  assert (Hrun : ∀ A B,
    A ∈ BasePlugin.name <$> catalog s → B ∈ BasePlugin.name <$> catalog s →
    (enable config A ;;; enable config B) s
    = (Ok tt,
       set_lists
         <[l := let ys := if decide (A ∈ xs) then xs else sorted (xs ++ [A]) in
                if decide (B ∈ ys) then ys else sorted (ys ++ [B])]>
         (after_load (after_load s)))).
  { intros A B HA HB.
    erewrite bind_Ok; [|by eapply enable_list_run].
    erewrite enable_list_run; [|exact HB|exact Hd|exact Hk|simpl; apply lookup_insert_eq].
    by rewrite after_load_set_lists, set_lists_insert_insert. }
  eexists. split; [by apply Hrun|].
  rewrite Hrun by done. by rewrite added_comm.
Qed.

Lemma enable_order_irrelevant_witness :
  ∃ s',
    (enable 1%positive "B" ;;; enable 1%positive "A") (sample []) = (Ok tt, s')
    ∧ (enable 1%positive "A" ;;; enable 1%positive "B") (sample []) = (Ok tt, s').
Proof.
  apply (enable_order_irrelevant
           (sample []) 1%positive {[CONFIG_KEY := VList 1%positive]} 1%positive [] "B" "A").
  - vm_compute. reflexivity.
  - vm_compute. reflexivity.
  - reflexivity.
  - reflexivity.
  - reflexivity.
Defined.

(** What [enable] does to the store, whether the key is there or not. *)
Lemma enable_result s config P xs :
  P ∈ BasePlugin.name <$> catalog s →
  config_plugins s config = Some xs →
  ∃ s1,
    enable config P s = (Ok tt, s1)
    ∧ config_plugins s1 config
      = Some (if decide (P ∈ xs) then xs else sorted (xs ++ [P]))
    ∧ catalog s1 = catalog s
    ∧ INSTANCE s1 = INSTANCE s
    ∧ (∀ c, c ≠ config → dicts s1 !! c = dicts s !! c)
    ∧ (∃ d d1, dicts s !! config = Some d ∧ dicts s1 !! config = Some d1
               ∧ ∀ k, k ≠ CONFIG_KEY → d1 !! k = d !! k)
    ∧ (∀ l0 ys, lists s !! l0 = Some ys →
         (∀ d, dicts s !! config = Some d → d !! CONFIG_KEY ≠ Some (VList l0)) →
         lists s1 !! l0 = Some ys).
Proof.
  intros Hinst Hcfg.
  destruct (config_plugins_inv _ _ _ Hcfg) as (d & Hd & [[Hk ->]|(l & Hk & Hl)]).
  - eexists. split; [by eapply enable_create|].
    rewrite decide_False by apply not_elem_of_nil.
    split; [eapply config_plugins_list; simpl; apply lookup_insert_eq|].
    split; [done|]. split; [done|]. simpl. split_and!.
    + intros c Hc. by rewrite lookup_insert_ne.
    + exists d. eexists. split; [done|]. split; [apply lookup_insert_eq|].
      intros k Hkk. by rewrite lookup_insert_ne.
    + intros l0 ys Hl0 _. rewrite lookup_insert_ne; [done|].
      intros <-. apply (is_fresh (dom (lists s))). by apply elem_of_dom.
  - eexists. split; [by eapply enable_list_run|].
    split; [eapply config_plugins_list; simpl; [done..|apply lookup_insert_eq]|].
    split; [done|]. split; [done|]. simpl. split_and!.
    + done.
    + by exists d, d.
    + intros l0 ys Hl0 Hne. rewrite lookup_insert_ne; [done|].
      intros <-. by apply (Hne d).
Qed.

(** X16. [enable] changes the membership of no other name: for an
    installed P and a configuration whose PLUGINS entry is absent or a
    list, every name other than P is enabled after enable(config, P)
    exactly when it was enabled before. *)
Theorem enable_keeps_other_names s config P xs :
  (is_installed P s).1 = Ok true →
  config_plugins s config = Some xs →
  ∃ s1,
    enable config P s = (Ok tt, s1)
    ∧ ∀ Q, Q ≠ P →
        ∃ b, is_enabled config Q s = (Ok b, s)
             ∧ is_enabled config Q s1 = (Ok b, s1)
             ∧ (b = true ↔ Q ∈ xs).
Proof.
  intros Hinst%is_installed_true Hcfg.
  destruct (enable_result s config P xs Hinst Hcfg) as (s1 & Hrun & Hcfg1 & _).
  exists s1. split; [done|]. intros Q HQ. exists (bool_decide (Q ∈ xs)).
  split; [by apply is_enabled_run|]. split; [|apply bool_decide_eq_true].
  rewrite (is_enabled_run _ _ _ _ Hcfg1). f_equal. f_equal.
  apply bool_decide_ext. case_decide; [done|].
  rewrite elem_of_sorted. set_solver.
Qed.

Lemma enable_keeps_other_names_witness :
  ∃ s1,
    enable 1%positive "A" (sample ["B"]) = (Ok tt, s1)
    ∧ ∀ Q, Q ≠ "A" →
        ∃ b, is_enabled 1%positive Q (sample ["B"]) = (Ok b, sample ["B"])
             ∧ is_enabled 1%positive Q s1 = (Ok b, s1)
             ∧ (b = true ↔ Q ∈ ["B"]).
Proof.
  apply (enable_keeps_other_names (sample ["B"]) 1%positive "A" ["B"]).
  - vm_compute. reflexivity.
  - reflexivity.
Defined.

(** X17. [enable] touches nothing but the PLUGINS entry: for an
    installed P and a configuration whose PLUGINS entry is absent or a
    list, every other dictionary, every other key of the
    configuration, every list that is not the PLUGINS list, and the
    cache are after enable(config, P) what they were before. *)
Theorem enable_touches_only_plugins s config P xs :
  (is_installed P s).1 = Ok true →
  config_plugins s config = Some xs →
  ∃ s1,
    enable config P s = (Ok tt, s1)
    ∧ INSTANCE s1 = INSTANCE s
    ∧ (∀ c, c ≠ config → dicts s1 !! c = dicts s !! c)
    ∧ (∃ d d1, dicts s !! config = Some d ∧ dicts s1 !! config = Some d1
               ∧ ∀ k, k ≠ CONFIG_KEY → d1 !! k = d !! k)
    ∧ (∀ l0 ys, lists s !! l0 = Some ys →
         (∀ d, dicts s !! config = Some d → d !! CONFIG_KEY ≠ Some (VList l0)) →
         lists s1 !! l0 = Some ys).
Proof.
  intros Hinst%is_installed_true Hcfg.
  destruct (enable_result s config P xs Hinst Hcfg) as (s1 & Hrun & _ & _ & H).
  by exists s1.
Qed.

Lemma enable_touches_only_plugins_witness :
  ∃ s1,
    enable 1%positive "A" (sample ["B"]) = (Ok tt, s1)
    ∧ INSTANCE s1 = INSTANCE (sample ["B"])
    ∧ (∀ c, c ≠ 1%positive → dicts s1 !! c = dicts (sample ["B"]) !! c)
    ∧ (∃ d d1, dicts (sample ["B"]) !! 1%positive = Some d ∧ dicts s1 !! 1%positive = Some d1
               ∧ ∀ k, k ≠ CONFIG_KEY → d1 !! k = d !! k)
    ∧ (∀ l0 ys, lists (sample ["B"]) !! l0 = Some ys →
         (∀ d, dicts (sample ["B"]) !! 1%positive = Some d →
               d !! CONFIG_KEY ≠ Some (VList l0)) →
         lists s1 !! l0 = Some ys).
Proof.
  apply (enable_touches_only_plugins (sample ["B"]) 1%positive "A" ["B"]).
  - vm_compute. reflexivity.
  - reflexivity.
Defined.

(** X18. Enabling twice is enabling once: after enable(config, P) on
    an installed P, a second enable(config, P) succeeds and changes no
    dictionary and no list. *)
Theorem enable_twice_is_once s config P xs :
  (is_installed P s).1 = Ok true →
  config_plugins s config = Some xs →
  ∃ s1 s2,
    enable config P s = (Ok tt, s1)
    ∧ enable config P s1 = (Ok tt, s2)
    ∧ dicts s2 = dicts s1 ∧ lists s2 = lists s1.
Proof.
  intros Hinst%is_installed_true Hcfg.
  destruct (enable_result s config P xs Hinst Hcfg) as (s1 & Hrun & Hcfg1 & Hcat & _).
  exists s1, (after_load s1). split; [done|]. split; [|done].
  eapply enable_already; [by rewrite Hcat|exact Hcfg1|].
  case_decide; [done|]. apply elem_of_sorted. set_solver.
Qed.

Lemma enable_twice_is_once_witness :
  ∃ s1 s2,
    enable 1%positive "A" (sample ["B"]) = (Ok tt, s1)
    ∧ enable 1%positive "A" s1 = (Ok tt, s2)
    ∧ dicts s2 = dicts s1 ∧ lists s2 = lists s1.
Proof.
  apply (enable_twice_is_once (sample ["B"]) 1%positive "A" ["B"]).
  - vm_compute. reflexivity.
  - reflexivity.
Defined.

(** X19. [disable] removes one name and nothing else: on a
    configuration whose PLUGINS entry is a list, after
    disable(config, P) the name P is not enabled, every other name is
    enabled exactly when it was, the names left keep their order (a
    sorted list stays sorted), no dictionary and no other list
    changes, and a second disable(config, P) changes nothing at all. *)
Theorem disable_removes_only_the_name s config d l xs P :
  dicts s !! config = Some d →
  d !! CONFIG_KEY = Some (VList l) →
  lists s !! l = Some xs →
  ∃ s1 xs1,
    disable config P s = (Ok tt, s1)
    ∧ lists s1 !! l = Some xs1
    ∧ xs1 `sublist_of` xs
    ∧ (Sorted String.le xs → Sorted String.le xs1)
    ∧ is_enabled config P s1 = (Ok false, s1)
    ∧ (∀ Q, Q ≠ P → is_enabled config Q s1 = (Ok (bool_decide (Q ∈ xs)), s1))
    ∧ dicts s1 = dicts s
    ∧ (∀ l0, l0 ≠ l → lists s1 !! l0 = lists s !! l0)
    ∧ disable config P s1 = (Ok tt, s1).
Proof.
  intros Hd Hk Hl.
  exists (set_lists <[l := filter (λ y, y ≠ P) xs]> s), (filter (λ y, y ≠ P) xs).
  assert (Hl1 : lists (set_lists <[l := filter (λ y, y ≠ P) xs]> s) !! l
                = Some (filter (λ y, y ≠ P) xs)) by (simpl; apply lookup_insert_eq).
  assert (Hcfg1 : config_plugins (set_lists <[l := filter (λ y, y ≠ P) xs]> s) config
                  = Some (filter (λ y, y ≠ P) xs)) by by eapply config_plugins_list.
  split; [by eapply disable_run|]. split; [done|].
  split; [apply sublist_filter|]. split_and!.
  - intros Hs. apply StronglySorted_Sorted, StronglySorted_filter_le.
    apply Sorted_StronglySorted; [apply _|done].
  - rewrite (is_enabled_run _ _ _ _ Hcfg1). f_equal. f_equal.
    apply bool_decide_eq_false_2. by intros [? _]%list_elem_of_filter.
  - intros Q HQ. rewrite (is_enabled_run _ _ _ _ Hcfg1). f_equal. f_equal.
    apply bool_decide_ext. rewrite list_elem_of_filter. naive_solver.
  - done.
  - intros l0 Hl0. simpl. by rewrite lookup_insert_ne.
  - erewrite disable_run; [|done..].
    rewrite set_lists_insert_insert. f_equal. f_equal. f_equal.
    rewrite filter_ne_id; [done|]. by intros [? _]%list_elem_of_filter.
Qed.

Lemma disable_removes_only_the_name_witness :
  ∃ s1 xs1,
    disable 1%positive "A" (sample ["A"; "B"; "A"]) = (Ok tt, s1)
    ∧ lists s1 !! 1%positive = Some xs1
    ∧ xs1 `sublist_of` ["A"; "B"; "A"]
    ∧ (Sorted String.le ["A"; "B"; "A"] → Sorted String.le xs1)
    ∧ is_enabled 1%positive "A" s1 = (Ok false, s1)
    ∧ (∀ Q, Q ≠ "A" →
         is_enabled 1%positive Q s1 = (Ok (bool_decide (Q ∈ ["A"; "B"; "A"])), s1))
    ∧ dicts s1 = dicts (sample ["A"; "B"; "A"])
    ∧ (∀ l0, l0 ≠ 1%positive → lists s1 !! l0 = lists (sample ["A"; "B"; "A"]) !! l0)
    ∧ disable 1%positive "A" s1 = (Ok tt, s1).
Proof.
  apply (disable_removes_only_the_name
           (sample ["A"; "B"; "A"]) 1%positive {[CONFIG_KEY := VList 1%positive]}
           1%positive ["A"; "B"; "A"] "A").
  - reflexivity.
  - reflexivity.
  - reflexivity.
Defined.

(** ** Enabled plugins and configuration keys *)

(** X20. The enabled plugins of a registry are installed plugins: when
    the snapshot of the registry is a dictionary of the store whose
    PLUGINS entry, if any, is a string or a list of the store,
    [iter_enabled] yields a sublist of what [iter_installed] yields,
    in the same order and with pairwise different names, and an
    installed plugin is among them exactly when [is_enabled] holds of
    its name. *)
Theorem iter_enabled_sublist_of_installed s self d :
  dicts s !! Plugins.config self = Some d →
  (∀ v, d !! CONFIG_KEY = Some v → is_Some (resolve (lists s) v)) →
  ∃ installed s1 enabled s2,
    Plugins_iter_installed s = (Ok installed, s1)
    ∧ Plugins_iter_enabled self s = (Ok enabled, s2)
    ∧ enabled `sublist_of` installed
    ∧ NoDup (BasePlugin.name <$> enabled)
    ∧ ∀ p, p ∈ installed →
        (p ∈ enabled
         ↔ is_enabled (Plugins.config self) (BasePlugin.name p) s = (Ok true, s)).
Proof.
  intros Hd Hv.
  exists (catalog s), (after_load s), (enabled_plugins s (Plugins.config self)),
    (after_load s).
  split; [apply Plugins_iter_installed_run|].
  split; [by eapply Plugins_iter_enabled_run|].
  split; [apply sublist_filter|]. split; [apply enabled_plugins_NoDup|].
  intros p Hp. rewrite (is_enabled_valid s _ _ d Hd Hv).
  unfold enabled_plugins. rewrite list_elem_of_filter. split.
  - by intros [-> _].
  - intros [= ->]. done.
Qed.

Lemma iter_enabled_sublist_of_installed_witness :
  ∃ installed s1 enabled s2,
    Plugins_iter_installed (sample ["B"]) = (Ok installed, s1)
    ∧ Plugins_iter_enabled (Plugins.Make 1%positive ∅ ∅ Dict.empty) (sample ["B"])
      = (Ok enabled, s2)
    ∧ enabled `sublist_of` installed
    ∧ NoDup (BasePlugin.name <$> enabled)
    ∧ ∀ p, p ∈ installed →
        (p ∈ enabled
         ↔ is_enabled (Plugins.config (Plugins.Make 1%positive ∅ ∅ Dict.empty))
                      (BasePlugin.name p) (sample ["B"])
           = (Ok true, sample ["B"])).
Proof.
  apply (iter_enabled_sublist_of_installed
           (sample ["B"]) (Plugins.Make 1%positive ∅ ∅ Dict.empty)
           {[CONFIG_KEY := VList 1%positive]}).
  - reflexivity.
  - intros v. rewrite lookup_singleton_eq. intros [= <-]. vm_compute. eauto.
Defined.

(** X21. The prefixed configuration keys of one plugin do not
    collide: two keys that [config_key] sends to the same string are
    the same key, whatever the plugin is called. *)
Theorem config_key_injective (upper : string → string) self key1 key2 :
  config_key upper self key1 = config_key upper self key2 → key1 = key2.
Proof. unfold config_key. apply (inj _). Qed.

Lemma config_key_injective_witness :
  config_key upper_ascii plugin_Z "HOST" = config_key upper_ascii plugin_Z "HOST"
  ∧ "HOST" = "HOST".
Proof.
  split; [reflexivity|].
  apply (config_key_injective upper_ascii plugin_Z "HOST" "HOST"). reflexivity.
Defined.

(** The configuration key of a plugin called minio. *)
Example config_key_minio :
  config_key upper_ascii
    (BasePlugin.Make EntrypointPlugin "minio" ∅ ∅ ∅ None None) "BUCKET_NAME"
  = "MINIO_BUCKET_NAME".
Proof. reflexivity. Qed.

(** ** A PLUGINS entry that is a string *)

(** X22. When the PLUGINS entry of a configuration is a string and
    not a list, [is_enabled] holds of the names that occur in the
    string as a substring.  For an installed name that occurs in it,
    [enable] returns without a change and [disable] raises
    AttributeError for the missing method remove; for an installed name
    that does not occur in it, [enable] raises AttributeError for the
    missing method append and [disable] returns without a change.  The
    dictionaries and lists of the store are as before in every
    case. *)
Theorem string_valued_entry s config d str P :
  (is_installed P s).1 = Ok true →
  dicts s !! config = Some d →
  d !! CONFIG_KEY = Some (VStr str) →
  ∃ s1,
    is_enabled config P s = (Ok (is_substring P str), s)
    ∧ enable config P s
      = (if is_substring P str then Ok tt else Raise (AttributeError "append"), s1)
    ∧ disable config P s
      = (if is_substring P str then Raise (AttributeError "remove") else Ok tt, s)
    ∧ dicts s1 = dicts s ∧ lists s1 = lists s.
Proof.
  intros Hin%is_installed_true Hd Hk. exists (after_load s).
  assert (Hen : ∀ s0, dicts s0 = dicts s →
            is_enabled config P s0 = (Ok (is_substring P str), s0)).
  { intros s0 Hs0. unfold is_enabled, dict_get, read_dict. unfold bind at 1 2.
    rewrite Hs0, Hd. simpl. by rewrite Hk. }
  split; [by apply Hen|]. split; [|split; [|by destruct s]].
  - unfold enable. mstep is_installed_run.
    rewrite bool_decide_eq_true_2 by done. simpl.
    erewrite bind_Ok; [|apply Hen; by destruct s].
    destruct (is_substring P str); [done|].
    assert (Hd' : dicts (after_load s) !! config = Some d) by by destruct s.
    mstep dict_contains_run. rewrite Hk. simpl.
    unfold bind at 1, ret at 1. mstep dict_getitem_run. simpl.
    by erewrite bind_Raise.
  - unfold disable, disable_rounds. rewrite Hd, Hk. simpl.
    mstep dict_getitem_run. unfold contains, bind at 1, ret at 1.
    destruct (is_substring P str); [|done].
    mstep dict_getitem_run. simpl. by erewrite bind_Raise.
Qed.

Lemma string_valued_entry_witness :
  ∃ s1,
    is_enabled 1%positive "B" sample_string = (Ok (is_substring "B" "minio-B"), sample_string)
    ∧ enable 1%positive "B" sample_string
      = (if is_substring "B" "minio-B" then Ok tt
         else Raise (AttributeError "append"), s1)
    ∧ disable 1%positive "B" sample_string
      = (if is_substring "B" "minio-B" then Raise (AttributeError "remove")
         else Ok tt, sample_string)
    ∧ dicts s1 = dicts sample_string ∧ lists s1 = lists sample_string.
Proof.
  apply (string_valued_entry sample_string 1%positive
           {[CONFIG_KEY := VStr "minio-B"]} "minio-B" "B").
  - vm_compute. reflexivity.
  - reflexivity.
  - reflexivity.
Defined.

(** With PLUGINS set to the string minio-B, the plugin B counts as
    enabled and cannot be disabled, and the plugin A cannot be
    enabled. *)
Example string_valued_entry_scenario :
  (is_enabled 1%positive "B" sample_string).1 = Ok true
  ∧ (disable 1%positive "B" sample_string).1 = Raise (AttributeError "remove")
  ∧ (enable 1%positive "A" sample_string).1 = Raise (AttributeError "append").
Proof. by vm_compute. Qed.
